(** * eml-extractor: attachment extraction with digest-based duplicate detection

    A shallow embedding of [eml-extractor.py] and the properties its
    specification states about it.

    Layout of the development:
    - [Hashlib]      : the MD5 function of RFC 1321 and the hash object of
                       Python's [hashlib], as far as the script uses it;
    - [Str], [OsPath]: the string operations, [os.path.splitext] and
                       [os.path.join], and the file system;
    - the functions of the script, in source order;
    - [Pool]         : the thread pool of [extract_and_save_attachments], as
                       an interleaving step relation and as a sequential run;
    - the vocabulary of the statements;
    - [Os]           : the script again, on an operating system that can
                       refuse a call, with the exceptions that end a call;
    - the theorems, grouped by the function they are about. *)

From Stdlib Require Import ZArith Strings.Byte Ascii String List Lia.
From Equations Require Import Equations.
From stdpp Require Import base tactics option list gmap strings pretty fin_maps fin_sets.

Local Open Scope Z_scope.

(** Python [bytes]. *)
Abbreviation bytes := (list byte).

Global Instance byte_eq_dec : EqDecision byte := Byte.byte_eq_dec.

(* ===================================================================== *)
(** * hashlib *)
(* ===================================================================== *)

Module Hashlib.

(** 32-bit words are integers in [0, 2^32); every operation wraps. *)
Definition wrap32 (x : Z) : Z := Z.land x 0xffffffff.
Definition add32 (x y : Z) : Z := wrap32 (x + y).
Definition not32 (x : Z) : Z := Z.lxor x 0xffffffff.
Definition rotl32 (x c : Z) : Z :=
  wrap32 (Z.lor (Z.shiftl x c) (Z.shiftr x (32 - c))).

(** Per-round shift amounts and the sine table of RFC 1321, section 3.4. *)
Definition shifts : list Z :=
  [7; 12; 17; 22; 7; 12; 17; 22; 7; 12; 17; 22; 7; 12; 17; 22;
   5;  9; 14; 20; 5;  9; 14; 20; 5;  9; 14; 20; 5;  9; 14; 20;
   4; 11; 16; 23; 4; 11; 16; 23; 4; 11; 16; 23; 4; 11; 16; 23;
   6; 10; 15; 21; 6; 10; 15; 21; 6; 10; 15; 21; 6; 10; 15; 21].

Definition sines : list Z :=
  [0xd76aa478; 0xe8c7b756; 0x242070db; 0xc1bdceee;
   0xf57c0faf; 0x4787c62a; 0xa8304613; 0xfd469501;
   0x698098d8; 0x8b44f7af; 0xffff5bb1; 0x895cd7be;
   0x6b901122; 0xfd987193; 0xa679438e; 0x49b40821;
   0xf61e2562; 0xc040b340; 0x265e5a51; 0xe9b6c7aa;
   0xd62f105d; 0x02441453; 0xd8a1e681; 0xe7d3fbc8;
   0x21e1cde6; 0xc33707d6; 0xf4d50d87; 0x455a14ed;
   0xa9e3e905; 0xfcefa3f8; 0x676f02d9; 0x8d2a4c8a;
   0xfffa3942; 0x8771f681; 0x6d9d6122; 0xfde5380c;
   0xa4beea44; 0x4bdecfa9; 0xf6bb4b60; 0xbebfbc70;
   0x289b7ec6; 0xeaa127fa; 0xd4ef3085; 0x04881d05;
   0xd9d4d039; 0xe6db99e5; 0x1fa27cf8; 0xc4ac5665;
   0xf4292244; 0x432aff97; 0xab9423a7; 0xfc93a039;
   0x655b59c3; 0x8f0ccc92; 0xffeff47d; 0x85845dd1;
   0x6fa87e4f; 0xfe2ce6e0; 0xa3014314; 0x4e0811a1;
   0xf7537e82; 0xbd3af235; 0x2ad7d2bb; 0xeb86d391].

Definition byte_to_Z (b : byte) : Z := Z.of_N (Byte.to_N b).

(** Little-endian decoding of a run of bytes, and encoding of [n] bytes. *)
Fixpoint le_decode (bs : bytes) : Z :=
  match bs with
  | [] => 0
  | b :: bs' => byte_to_Z b + 256 * le_decode bs'
  end.

Fixpoint le_encode (n : nat) (x : Z) : list Z :=
  match n with
  | O => []
  | S n' => Z.land x 0xff :: le_encode n' (Z.shiftr x 8)
  end.

Definition Z_to_byte (x : Z) : byte :=
  default x00 (Byte.of_N (Z.to_N x)).

(** Message padding: a 1 bit, zeros up to 56 mod 64, the bit length on 64
    bits. *)
Definition padding (len : nat) : bytes :=
  let zeros := ((55 - Z.of_nat len) mod 64)%Z in
  x80 :: repeat x00 (Z.to_nat zeros)
      ++ (Z_to_byte <$> le_encode 8 ((8 * Z.of_nat len) mod 2 ^ 64)).

(** The sixteen words of a 64-byte block. *)
Fixpoint words (n : nat) (block : bytes) : list Z :=
  match n with
  | O => []
  | S n' => le_decode (take 4 block) :: words n' (drop 4 block)
  end.

Record md5_state := MD5State { sA : Z; sB : Z; sC : Z; sD : Z }.

Definition md5_init : md5_state :=
  MD5State 0x67452301 0xefcdab89 0x98badcfe 0x10325476.

Definition round (M : list Z) (s : md5_state) (i : nat) : md5_state :=
  let '(MD5State A B C D) := s in
  let iz := Z.of_nat i in
  let '(F, g) :=
    if (iz <? 16) then (Z.lor (Z.land B C) (Z.land (not32 B) D), iz)
    else if (iz <? 32) then
      (Z.lor (Z.land D B) (Z.land (not32 D) C), (5 * iz + 1) mod 16)
    else if (iz <? 48) then (Z.lxor B (Z.lxor C D), (3 * iz + 5) mod 16)
    else (Z.lxor C (Z.lor B (not32 D)), (7 * iz) mod 16) in
  let F' := add32 (add32 (add32 F A) (nth i sines 0)) (nth (Z.to_nat g) M 0) in
  MD5State D (add32 B (rotl32 F' (nth i shifts 0))) B C.

Definition compress (s : md5_state) (block : bytes) : md5_state :=
  let r := fold_left (round (words 16 block)) (seq 0 64) s in
  MD5State (add32 (sA s) (sA r)) (add32 (sB s) (sB r))
           (add32 (sC s) (sC r)) (add32 (sD s) (sD r)).

(** The padded message is consumed sixty-four bytes at a time; [n] counts the
    blocks. *)
Fixpoint blocks (n : nat) (s : md5_state) (msg : bytes) : md5_state :=
  match n with
  | O => s
  | S n' => blocks n' (compress s (take 64 msg)) (drop 64 msg)
  end.

Definition md5_raw (msg : bytes) : list Z :=
  let padded := msg ++ padding (length msg) in
  let s := blocks (length padded / 64) md5_init padded in
  le_encode 4 (sA s) ++ le_encode 4 (sB s)
    ++ le_encode 4 (sC s) ++ le_encode 4 (sD s).

Definition hex_digit (x : Z) : ascii :=
  nth (Z.to_nat x) (list_ascii_of_string "0123456789abcdef") "0"%char.

Fixpoint hex (xs : list Z) : string :=
  match xs with
  | [] => EmptyString
  | x :: xs' =>
      String (hex_digit (Z.shiftr x 4)) (String (hex_digit (Z.land x 0xf)) (hex xs'))
  end.

(** The hash object of [hashlib.md5]: per the library's contract, feeding
    chunks with [update] is the same as feeding their concatenation, so the
    object is the message seen so far. *)
Record md5_object := MD5 { fed : bytes }.

Definition md5 (data : bytes) : md5_object := MD5 data.
Definition new : md5_object := MD5 [].
Definition update (h : md5_object) (chunk : bytes) : md5_object :=
  MD5 (fed h ++ chunk).
Definition hexdigest (h : md5_object) : string := hex (md5_raw (fed h)).

End Hashlib.

Local Close Scope Z_scope.

(* ===================================================================== *)
(** * os.path and the file system *)
(* ===================================================================== *)

(** Python [str] operations the script relies on. Indices are Python
    integers: [rfind] answers [-1] when the character is absent. *)
Module Str.

Fixpoint take (n : nat) (s : string) : string :=
  match n, s with
  | S n', String a s' => String a (take n' s')
  | _, _ => ""
  end.

Fixpoint drop (n : nat) (s : string) : string :=
  match n, s with
  | S n', String _ s' => drop n' s'
  | _, _ => s
  end.

Fixpoint rfind_from (i : Z) (c : ascii) (s : string) : Z :=
  match s with
  | "" => (-1)%Z
  | String a s' =>
      let r := rfind_from (i + 1) c s' in
      if (0 <=? r)%Z then r else if decide (a = c) then i else (-1)%Z
  end.
Definition rfind (s : string) (c : ascii) : Z := rfind_from 0 c s.

Definition startswith (s : string) (c : ascii) : bool :=
  match s with
  | String a _ => bool_decide (a = c)
  | "" => false
  end.

Fixpoint endswith (s : string) (c : ascii) : bool :=
  match s with
  | "" => false
  | String a "" => bool_decide (a = c)
  | String _ s' => endswith s' c
  end.

Fixpoint all_dots (s : string) : bool :=
  match s with
  | "" => true
  | String a s' => bool_decide (a = "."%char) && all_dots s'
  end.

Lemma length_app (s1 s2 : string) :
  String.length (s1 +:+ s2) = String.length s1 + String.length s2.
Proof. induction s1 as [|a s1 IH]; simpl; [done | by rewrite IH]. Qed.

Lemma app_inv_tail (s1 s2 e : string) : s1 +:+ e = s2 +:+ e → s1 = s2.
Proof.
  revert s2. induction s1 as [|a s1 IH]; intros [|a' s2] H.
  - done.
  - apply (f_equal String.length) in H. rewrite !length_app in H. simpl in H. lia.
  - apply (f_equal String.length) in H. rewrite !length_app in H. simpl in H. lia.
  - injection H as -> H. f_equal. by apply IH.
Qed.

Lemma take_drop (n : nat) (s : string) : take n s +:+ drop n s = s.
Proof.
  revert s. induction n as [|n IH]; intros [|a s]; simpl; try done.
  change (String a (take n s +:+ drop n s) = String a s). by rewrite IH.
Qed.

Lemma app_nil_r (s : string) : s +:+ "" = s.
Proof.
  induction s as [|a s IH]; [done |].
  change (String a (s +:+ "") = String a s). by rewrite IH.
Qed.

Lemma startswith_app (s t : string) (c : ascii) :
  s ≠ "" → startswith (s +:+ t) c = startswith s c.
Proof. by destruct s. Qed.

End Str.

Module OsPath.

(** [posixpath.splitext]: the extension starts at the last dot of the last
    path component, unless that component has only dots before it. *)
Definition splitext (p : string) : string * string :=
  let sepIndex := Str.rfind p "/" in
  let dotIndex := Str.rfind p "." in
  if (sepIndex <? dotIndex)%Z then
    let filenameIndex := (sepIndex + 1)%Z in
    if Str.all_dots (Str.take (Z.to_nat (dotIndex - filenameIndex))
                              (Str.drop (Z.to_nat filenameIndex) p))
    then (p, "")
    else (Str.take (Z.to_nat dotIndex) p, Str.drop (Z.to_nat dotIndex) p)
  else (p, "").

(** [posixpath.join] of two components. *)
Definition join (a p : string) : string :=
  if Str.startswith p "/" then p
  else if bool_decide (a = "") || Str.endswith a "/" then a +:+ p
  else a +:+ "/" +:+ p.

End OsPath.

(** The file system, as far as the script observes it: the regular files
    that exist, by path, with their contents. Every write to a path succeeds
    and every existing path is a readable regular file; directories and
    paths that cannot be written come in with [Os] below. *)
Abbreviation filesystem := (gmap string bytes).

Definition os_path_exists (fs : filesystem) (path : string) : bool :=
  bool_decide (is_Some (fs !! path)).

(* ===================================================================== *)
(** * The script *)
(* ===================================================================== *)

Definition file_md5 (file_data : bytes) : string :=
  Hashlib.hexdigest (Hashlib.md5 file_data).

(** A file opened for reading is the bytes still ahead of the position;
    [f.read(size)] hands out at most [size] of them. *)
Definition read (size : nat) (f : bytes) : bytes * bytes :=
  (take size f, drop size f).

(** Keeps the equation of a scrutinee in view of the recursive calls. *)
Definition inspect {A} (a : A) : {x : A | a = x} := exist _ a eq_refl.

(** [for chunk in iter(lambda: f.read(size), b""): hash_md5.update(chunk)]:
    the loop ends at the first empty read. *)
Equations? update_chunks (size : nat) (f : bytes) (hash_md5 : Hashlib.md5_object)
  : Hashlib.md5_object by wf (length f) lt :=
  update_chunks size f hash_md5 with inspect (read size f) := {
    | exist _ ([], _) _ => hash_md5
    | exist _ (chunk, f') _ =>
        update_chunks size f' (Hashlib.update hash_md5 chunk) }.
Proof.
  unfold read in *. simplify_eq. rewrite length_drop.
  destruct f as [|x f]; [by rewrite take_nil in * |].
  destruct size; [done |]. cbn [length]. lia.
Qed.

(** [None] stands for the exception of [open] on a missing file; the script
    calls the function on paths it has just seen to exist. *)
Definition existing_file_md5 (fs : filesystem) (file_path : string)
  : option string :=
  f ← fs !! file_path;
  Some (Hashlib.hexdigest (update_chunks 4096 f Hashlib.new)).

(** The numbered names tried by [make_unique_filename], and what makes its
    loop stop at one of them. *)
Section while_True.
Context (fs : filesystem) (target_dir base extension new_md5 : string).

(** [f"{base}_{counter}{extension}"] *)
Definition unique_filename (counter : nat) : string :=
  base +:+ "_" +:+ pretty counter +:+ extension.

Definition unique_path (counter : nat) : string :=
  OsPath.join target_dir (unique_filename counter).

(** The condition of the [break]. *)
Definition breaks (counter : nat) : bool :=
  negb (os_path_exists fs (unique_path counter))
  || bool_decide (existing_file_md5 fs (unique_path counter) = Some new_md5).

(** The files of the directory that no earlier round has looked at: the
    quantity that shrinks at every round that does not break. *)
Definition unvisited (counter : nat) : nat :=
  size (dom fs ∖ list_to_set (unique_path <$> seq 0 counter)).

Lemma unique_filename_inj : Inj (=) (=) unique_filename.
Proof.
  intros k k' H. unfold unique_filename in H.
  apply (inj (String.app base)), (inj (String.app "_")) in H.
  apply Str.app_inv_tail in H. by apply (inj pretty) in H.
Qed.

Lemma unique_path_inj : Inj (=) (=) unique_path.
Proof.
  intros k k' H. unfold unique_path, OsPath.join in H.
  assert (∀ n, Str.startswith (unique_filename n) "/"
               = Str.startswith (base +:+ "_") "/") as Hs.
  { intros n. unfold unique_filename. by destruct base. }
  rewrite !Hs in H. apply unique_filename_inj.
  destruct (Str.startswith _ _); [done |].
  destruct (_ || _).
  - by apply (inj (String.app target_dir)) in H.
  - by apply (inj (String.app target_dir)), (inj (String.app "/")) in H.
Qed.

Lemma unvisited_decreases (counter : nat) :
  breaks counter = false → unvisited (S counter) < unvisited counter.
Proof.
  unfold breaks, unvisited, os_path_exists. intros Hb.
  apply orb_false_iff in Hb as [Hex _].
  apply negb_false_iff, bool_decide_eq_true, elem_of_dom in Hex.
  apply subset_size. rewrite seq_S, fmap_app, list_to_set_app_L. simpl.
  assert (unique_path counter ∉
            (list_to_set (unique_path <$> seq 0 counter) : gset string)) as Hn.
  { rewrite elem_of_list_to_set, list_elem_of_fmap.
    intros (k & Hk%unique_path_inj & Hin). subst k.
    apply list_elem_of_In, in_seq in Hin. lia. }
  set_solver.
Qed.

Equations? while_True (counter : nat) : string
  by wf (unvisited counter) lt :=
  while_True counter with inspect (breaks counter) := {
    | exist _ true _ => unique_filename counter
    | exist _ false _ => while_True (S counter) }.
Proof. by apply unvisited_decreases. Qed.
End while_True.

Definition make_unique_filename
    (fs : filesystem) (target_dir filename : string) (file_data : bytes)
  : option string :=
  let '(base, extension) := OsPath.splitext filename in
  let original_path := OsPath.join target_dir filename in
  if os_path_exists fs original_path then
    let new_md5 := file_md5 file_data in
    if bool_decide (existing_file_md5 fs original_path = Some new_md5) then
      None
    else
      Some (while_True fs target_dir base extension new_md5 1)
  else
    Some filename.

(** One part of a parsed message, as the script reads it: the value of
    [get_content_disposition()], of [get_filename()] and of
    [get_payload(decode=True)] (parts whose payload is not [bytes], or
    whose getters raise, are those of [Os.walked_part]). *)
Record part := Part {
  get_content_disposition : option string;
  get_filename : option string;
  get_payload : bytes }.

Global Instance part_eq_dec : EqDecision part.
Proof. solve_decision. Defined.

(** An attachment part named [filename] carrying [file_data]. *)
Definition attachment (filename : string) (file_data : bytes) : part :=
  Part (Some "attachment") (Some filename) file_data.

(** What [open] and [email.message_from_binary_file] make of a message file:
    an exception, or a message, given by the parts [msg.walk()] yields. *)
Inductive message_file :=
| Unparsable
| Message (walk : list part).

Global Instance message_file_eq_dec : EqDecision message_file.
Proof. solve_decision. Defined.

(** The shared [stats] dictionary. *)
Record counters := Counters { processed : nat; extracted : nat }.

Global Instance counters_eq_dec : EqDecision counters.
Proof. solve_decision. Defined.

(** Everything the workers share: the files on disk and [stats]. *)
Record world := World { fs : filesystem; stats : counters }.

Global Instance world_eq_dec : EqDecision world.
Proof. solve_decision. Defined.

(** How a call ends. *)
Inductive outcome := Returned | Raised.

Global Instance outcome_eq_dec : EqDecision outcome.
Proof. solve_decision. Defined.

(** Truth value of a Python string. *)
Definition truthy (s : string) : bool := negb (bool_decide (s = "")).

(** The first half of the loop body, up to the test of [unique_filename]:
    the name and the bytes to save, if the part is to be saved. *)
Definition to_save (fs : filesystem) (target_dir : string) (p : part)
  : option (string * bytes) :=
  if bool_decide (get_content_disposition p = Some "attachment") then
    match get_filename p with
    | Some filename =>
        if truthy filename then
          let file_data := get_payload p in
          match make_unique_filename fs target_dir filename file_data with
          | Some unique_filename =>
              if truthy unique_filename then Some (unique_filename, file_data)
              else None
          | None => None
          end
        else None
    | None => None
    end
  else None.

(** The second half: the write and [stats['extracted'] += 1]. *)
Definition save (target_dir : string) (w : world) (s : string * bytes) : world :=
  let '(unique_filename, file_data) := s in
  let save_path := OsPath.join target_dir unique_filename in
  World (<[save_path := file_data]> (fs w))
        (Counters (processed (stats w)) (extracted (stats w) + 1)).

Definition for_part (target_dir : string) (w : world) (p : part) : world :=
  match to_save (fs w) target_dir p with
  | Some s => save target_dir w s
  | None => w
  end.

(** [stats['processed'] += 1] *)
Definition mark_processed (w : world) : world :=
  World (fs w) (Counters (processed (stats w) + 1) (extracted (stats w))).

(** One call of [extract_attachments_from_file], run without interruption,
    where nothing is refused once the message is parsed (the exceptions of
    the walk are those of [Os.extract_attachments_from_file]). Console and
    progress output are left out. *)
Definition extract_attachments_from_file
    (file : message_file) (target_dir : string) (w : world) : world * outcome :=
  match file with
  | Unparsable => (w, Raised)
  | Message walk =>
      (mark_processed (fold_left (for_part target_dir) walk w), Returned)
  end.

(* ===================================================================== *)
(** * The thread pool of [extract_and_save_attachments] *)
(* ===================================================================== *)

Module Pool.

(** Where a submitted call of [extract_attachments_from_file] stands. A
    worker can be preempted between [make_unique_filename] returning and the
    write that follows it ([Saving]). A call of [make_unique_filename] is
    one step, and so is a write with its increment of [stats]: every
    execution of this pool is an execution of the real one, which has finer
    interleavings still. Creating the target directory and reporting
    progress are left out. *)
Inductive task :=
| Submitted (file : message_file)
| Walking (rest : list part)
| Saving (s : string * bytes) (rest : list part)
| Done (r : outcome).

Global Instance task_eq_dec : EqDecision task.
Proof. solve_decision. Defined.

Definition task_step (target_dir : string) (w : world) (t : task)
  : option (world * task) :=
  match t with
  | Submitted Unparsable => Some (w, Done Raised)
  | Submitted (Message walk) => Some (w, Walking walk)
  | Walking [] => Some (mark_processed w, Done Returned)
  | Walking (p :: rest) =>
      match to_save (fs w) target_dir p with
      | Some s => Some (w, Saving s rest)
      | None => Some (w, Walking rest)
      end
  | Saving s rest => Some (save target_dir w s, Walking rest)
  | Done _ => None
  end.

(** One step of the pool: some task moves. *)
Inductive step (target_dir : string)
  : world * list task → world * list task → Prop :=
| step_task i w ts t w' t' :
    ts !! i = Some t →
    task_step target_dir w t = Some (w', t') →
    step target_dir (w, ts) (w', <[i := t']> ts).

(** A schedule names the task that moves at each step. *)
Fixpoint run_schedule (target_dir : string) (schedule : list nat)
    (c : world * list task) : option (world * list task) :=
  match schedule with
  | [] => Some c
  | i :: schedule' =>
      t ← c.2 !! i;
      '(w', t') ← task_step target_dir c.1 t;
      run_schedule target_dir schedule' (w', <[i := t']> c.2)
  end.

Definition is_done (t : task) : bool :=
  match t with Done _ => true | _ => false end.

Definition start (fs0 : filesystem) (eml_files : list message_file)
  : world * list task :=
  (World fs0 (Counters 0 0), Submitted <$> eml_files).

(** [extract_and_save_attachments] under some scheduling of its workers:
    the files it leaves on disk and the pair it returns. *)
Definition extract_and_save_attachments
    (eml_files : list message_file) (target_dir : string) (fs0 : filesystem)
    (fs' : filesystem) (result : nat * nat) : Prop :=
  ∃ w ts,
    rtc (step target_dir) (start fs0 eml_files) (w, ts)
    ∧ forallb is_done ts = true
    ∧ fs' = fs w ∧ result = (processed (stats w), extracted (stats w)).

(** The workers run one after the other, in the order of submission. *)
Definition run_sequential (target_dir : string)
    (eml_files : list message_file) (w : world) : world :=
  fold_left (λ w file, (extract_attachments_from_file file target_dir w).1)
            eml_files w.

Definition extract_and_save_attachments_sequential
    (eml_files : list message_file) (target_dir : string) (fs0 : filesystem)
  : filesystem * (nat * nat) :=
  let w := run_sequential target_dir eml_files (World fs0 (Counters 0 0)) in
  (fs w, (processed (stats w), extracted (stats w))).

End Pool.

(* ===================================================================== *)
(** * The rest of the script: the file list and the command line *)
(* ===================================================================== *)

(** [s.endswith(suffix)] *)
Definition str_endswith (s suffix : string) : bool :=
  bool_decide (Str.drop (String.length s - String.length suffix) s = suffix).

(** The list comprehension of [extract_and_save_attachments] over what
    [os.walk(start_dir)] yields, a list of [(root, dirs, files)]. *)
Definition eml_files (walk : list (string * list string * list string))
  : list string :=
  '(root, dirs, files) ← walk;
  file ← files;
  if str_endswith file ".eml" then [OsPath.join root file] else [].

(** How the block under [if __name__ == "__main__"] goes on from [sys.argv]:
    [sys.exit(1)] after the usage line, an [IndexError] of [sys.argv[2]], or
    the call [extract_and_save_attachments(start_directory, verbose=verbose)]. *)
Inductive main_result :=
| SysExit (code : nat)
| IndexError
| Extracts (start_directory : string) (verbose : bool).

Global Instance main_result_eq_dec : EqDecision main_result.
Proof. solve_decision. Defined.

Definition main (argv : list string) : main_result :=
  let verbose := bool_decide ("-v" ∈ argv) in
  if bool_decide (length argv ∉ [2; 3]) then SysExit 1
  else
    match argv !! 1 with
    | None => IndexError
    | Some first =>
        if bool_decide (first ≠ "-v") then Extracts first verbose
        else
          match argv !! 2 with
          | Some second => Extracts second verbose
          | None => IndexError
          end
    end.

(* ===================================================================== *)
(** * Vocabulary of the statements *)
(* ===================================================================== *)

(** What the loop body keeps of a part before it looks at the disk: the name
    and bytes of an attachment that has a file name. *)
Definition saved_part (p : part) : option (string * bytes) :=
  if bool_decide (get_content_disposition p = Some "attachment") then
    match get_filename p with
    | Some filename =>
        if truthy filename then Some (filename, get_payload p) else None
    | None => None
    end
  else None.

(** The attachments a message file brings to the run, in document order. *)
Definition attachments_of (file : message_file) : list (string * bytes) :=
  match file with
  | Unparsable => []
  | Message walk => omap saved_part walk
  end.

Definition save_attachment (target_dir : string) (w : world)
    (a : string * bytes) : world :=
  for_part target_dir w (attachment a.1 a.2).

(** The [n]-th name of the family of [filename]: the plain name, then the
    numbered ones. *)
Definition slot (target_dir filename base extension : string) (n : nat)
  : string :=
  match n with
  | 0 => OsPath.join target_dir filename
  | S _ => unique_path target_dir base extension n
  end.

(** The names up to [n] hold the first [n] contents and the later names are
    free. *)
Definition placed (target_dir filename base extension : string)
    (contents : list bytes) (n : nat) (disk : filesystem) : Prop :=
  (∀ i data, i < n → contents !! i = Some data →
             disk !! slot target_dir filename base extension i = Some data)
  ∧ (∀ i, n ≤ i → disk !! slot target_dir filename base extension i = None).

(** Two worlds with the same files and the same [extracted]. *)
Definition same_output (w1 w2 : world) : Prop :=
  fs w1 = fs w2 ∧ extracted (stats w1) = extracted (stats w2).

(** The task of an unparsable file: submitted, or ended by the exception. *)
Definition raised_or_waiting (t : Pool.task) : Prop :=
  t = Pool.Submitted Unparsable ∨ t = Pool.Done Raised.

(** The files after one attachment has gone through the loop body. *)
Definition disk_step (target_dir : string) (disk : filesystem)
    (a : string * bytes) : filesystem :=
  match make_unique_filename disk target_dir a.1 a.2 with
  | Some unique_filename =>
      <[OsPath.join target_dir unique_filename := a.2]> disk
  | None => disk
  end.

(** Every file of [disk] is still there in [disk'], with the same digest. *)
Definition keeps_digests (disk disk' : filesystem) : Prop :=
  ∀ path digest,
    existing_file_md5 disk path = Some digest →
    existing_file_md5 disk' path = Some digest.

(** The allocation for [a] finds its content on disk: it answers [None], or
    the name of a file with the digest of [a]. *)
Definition settled (target_dir : string) (disk : filesystem)
    (a : string * bytes) : Prop :=
  make_unique_filename disk target_dir a.1 a.2 = None
  ∨ ∃ name,
      make_unique_filename disk target_dir a.1 a.2 = Some name
      ∧ existing_file_md5 disk (OsPath.join target_dir name)
        = Some (file_md5 a.2).

(** The writes of a run whose attachments are all settled in [disk]. *)
Definition rewrites (target_dir : string) (disk : filesystem)
    (l : list (string * bytes)) : list (string * bytes) :=
  omap (λ a, (λ name, (OsPath.join target_dir name, a.2))
               <$> make_unique_filename disk target_dir a.1 a.2) l.

Definition write_all (writes : list (string * bytes)) (disk : filesystem)
  : filesystem :=
  fold_left (λ disk w, <[w.1 := w.2]> disk) writes disk.

(** The end-to-end example of the specification: [a.eml] carries
    [report.pdf] with content X, [b.eml] carries [report.pdf] with content Y.
    The first part [walk] yields is the message itself. *)
Definition a_eml : message_file :=
  Message [Part None None []; attachment "report.pdf" [x58]].
Definition b_eml : message_file :=
  Message [Part None None []; attachment "report.pdf" [x59]].

(** Two different blocks of 128 bytes with the same MD5 digest (Wang and Yu,
    2005). *)
Definition collision_1 : bytes :=
  [xd1; x31; xdd; x02; xc5; xe6; xee; xc4; x69; x3d; x9a; x06;
   x98; xaf; xf9; x5c; x2f; xca; xb5; x87; x12; x46; x7e; xab;
   x40; x04; x58; x3e; xb8; xfb; x7f; x89; x55; xad; x34; x06;
   x09; xf4; xb3; x02; x83; xe4; x88; x83; x25; x71; x41; x5a;
   x08; x51; x25; xe8; xf7; xcd; xc9; x9f; xd9; x1d; xbd; xf2;
   x80; x37; x3c; x5b; xd8; x82; x3e; x31; x56; x34; x8f; x5b;
   xae; x6d; xac; xd4; x36; xc9; x19; xc6; xdd; x53; xe2; xb4;
   x87; xda; x03; xfd; x02; x39; x63; x06; xd2; x48; xcd; xa0;
   xe9; x9f; x33; x42; x0f; x57; x7e; xe8; xce; x54; xb6; x70;
   x80; xa8; x0d; x1e; xc6; x98; x21; xbc; xb6; xa8; x83; x93;
   x96; xf9; x65; x2b; x6f; xf7; x2a; x70].
Definition collision_2 : bytes :=
  [xd1; x31; xdd; x02; xc5; xe6; xee; xc4; x69; x3d; x9a; x06;
   x98; xaf; xf9; x5c; x2f; xca; xb5; x07; x12; x46; x7e; xab;
   x40; x04; x58; x3e; xb8; xfb; x7f; x89; x55; xad; x34; x06;
   x09; xf4; xb3; x02; x83; xe4; x88; x83; x25; xf1; x41; x5a;
   x08; x51; x25; xe8; xf7; xcd; xc9; x9f; xd9; x1d; xbd; x72;
   x80; x37; x3c; x5b; xd8; x82; x3e; x31; x56; x34; x8f; x5b;
   xae; x6d; xac; xd4; x36; xc9; x19; xc6; xdd; x53; xe2; x34;
   x87; xda; x03; xfd; x02; x39; x63; x06; xd2; x48; xcd; xa0;
   xe9; x9f; x33; x42; x0f; x57; x7e; xe8; xce; x54; xb6; x70;
   x80; x28; x0d; x1e; xc6; x98; x21; xbc; xb6; xa8; x83; x93;
   x96; xf9; x65; xab; x6f; xf7; x2a; x70].

(* ===================================================================== *)
(** * The script on an operating system that can refuse a call *)
(* ===================================================================== *)

(** The functions above are the script where nothing it asks of the
    operating system fails. [Os] has them again with what can fail once a
    message file is parsed: a path can be a directory or a file that cannot
    be opened, of which [os.path.exists] is true and on which [open]
    raises; [open(path, 'wb')] can raise on a path; a part can be without
    bytes, or raise in its getters; and an exception ends the call, as the
    script handles none. The logging under [-v] is left out, as before.

    Paths are compared as the script spells them. Statements about more than
    one name are therefore made for names without a directory part, in a
    target directory listed under such names ([in_directory]), where two
    names that differ are two files. *)

(** A file name without a directory part: [os.path.join] puts the file of
    such a name directly into the target directory. *)
Fixpoint plain_name (name : string) : bool :=
  match name with
  | "" => true
  | String a name' => negb (bool_decide (a = "/"%char)) && plain_name name'
  end.

(** The file system lists files of the target directory only, each under
    the path [os.path.join] spells for its plain name. *)
Definition in_directory (target_dir : string) (fs : filesystem) : Prop :=
  ∀ path, is_Some (fs !! path) →
          ∃ name, plain_name name = true ∧ path = OsPath.join target_dir name.

Module Os.

(** What the operating system makes of a path, besides the regular files
    listed in the file system: a path that exists and that [open] raises
    on, a directory ([IsADirectoryError]) or a file that may not be opened;
    a path on which [open(path, 'wb')] raises for another reason (a
    directory part that does not exist, a name past the length limit, a
    missing permission to write), while a regular file listed under it can
    be read; or a path that [open(path, 'wb')] opens. *)
Inductive path_kind := Unreadable | Refused | Accepted.

Global Instance path_kind_eq_dec : EqDecision path_kind.
Proof. solve_decision. Defined.

Definition env := string → path_kind.

(** The exceptions that end a call of [extract_attachments_from_file] after
    the message has been parsed: of [hashlib.md5] and of [write] on [None],
    of [open], and of a getter of the [email] package on a defective
    header. *)
Inductive error := TypeError | OSError | HeaderError.

Global Instance error_eq_dec : EqDecision error.
Proof. solve_decision. Defined.

Inductive result (A : Type) :=
| Raise (e : error)
| Return (a : A).
Global Arguments Raise {A} e.
Global Arguments Return {A} a.

Global Instance result_eq_dec {A} `{EqDecision A} : EqDecision (result A).
Proof. solve_decision. Defined.

(** One part as [msg.walk()] yields it: a part whose getters raise, or the
    values of [get_content_disposition()], [get_filename()] and
    [get_payload(decode=True)]; the last one is [None] for a multipart part,
    such as an attached message. *)
Inductive walked_part :=
| Defective
| Walked (content_disposition filename : option string)
         (file_data : option bytes).

Global Instance walked_part_eq_dec : EqDecision walked_part.
Proof. solve_decision. Defined.

Inductive eml_file :=
| Broken
| Parsed (walk : list walked_part).

Global Instance eml_file_eq_dec : EqDecision eml_file.
Proof. solve_decision. Defined.

(** The parts and files of the script run where no getter raises and every
    payload is [bytes]. *)
Definition of_part (p : part) : walked_part :=
  Walked (get_content_disposition p) (get_filename p) (Some (get_payload p)).

Definition of_file (file : message_file) : eml_file :=
  match file with
  | Unparsable => Broken
  | Message walk => Parsed (of_part <$> walk)
  end.

(** [os.path.exists] *)
Definition os_path_exists (os : env) (fs : filesystem) (path : string) : bool :=
  match os path with
  | Unreadable => true
  | _ => os_path_exists fs path
  end.

(** [hashlib.md5(file_data).hexdigest()] *)
Definition file_md5 (file_data : option bytes) : result string :=
  match file_data with
  | Some data => Return (file_md5 data)
  | None => Raise TypeError
  end.

Definition existing_file_md5 (os : env) (fs : filesystem) (file_path : string)
  : result string :=
  match os file_path with
  | Unreadable => Raise OSError
  | _ =>
      match existing_file_md5 fs file_path with
      | Some digest => Return digest
      | None => Raise OSError
      end
  end.

Section while_True.
Context (os : env) (fs : filesystem).
Context (target_dir base extension new_md5 : string).

(** One round of the loop: the way it is left, if it is left. On a path
    that exists and cannot be opened [os.path.exists] is true and
    [existing_file_md5] raises. *)
Definition leaves (counter : nat) : option (result string) :=
  match os (unique_path target_dir base extension counter) with
  | Unreadable => Some (Raise OSError)
  | _ =>
      if breaks fs target_dir base extension new_md5 counter
      then Some (Return (unique_filename base extension counter))
      else None
  end.

Lemma leaves_None (counter : nat) :
  leaves counter = None →
  breaks fs target_dir base extension new_md5 counter = false.
Proof.
  unfold leaves. destruct (os _); [done | |];
    by destruct (breaks _ _ _ _ _ _).
Qed.

Equations? while_True (counter : nat) : result string
  by wf (unvisited fs target_dir base extension counter) lt :=
  while_True counter with inspect (leaves counter) := {
    | exist _ (Some r) _ => r
    | exist _ None _ => while_True (S counter) }.
Proof. by apply unvisited_decreases with new_md5, leaves_None. Qed.
End while_True.

Definition make_unique_filename
    (os : env) (fs : filesystem) (target_dir filename : string)
    (file_data : option bytes) : result (option string) :=
  let '(base, extension) := OsPath.splitext filename in
  let original_path := OsPath.join target_dir filename in
  if os_path_exists os fs original_path then
    match file_md5 file_data with
    | Raise e => Raise e
    | Return new_md5 =>
        match existing_file_md5 os fs original_path with
        | Raise e => Raise e
        | Return digest =>
            if bool_decide (digest = new_md5) then Return None
            else
              match while_True os fs target_dir base extension new_md5 1 with
              | Raise e => Raise e
              | Return unique_filename => Return (Some unique_filename)
              end
        end
    end
  else Return (Some filename).

(** The body of [for part in msg.walk()] for one part: the world it leaves
    and whether the walk goes on. [open(save_path, 'wb')] creates or empties
    the file before [f.write(file_data)] is reached. *)
Definition for_part (os : env) (target_dir : string) (w : world)
    (p : walked_part) : world * outcome :=
  match p with
  | Defective => (w, Raised)
  | Walked content_disposition filename file_data =>
      if bool_decide (content_disposition = Some "attachment") then
        match filename with
        | Some filename =>
            if truthy filename then
              match make_unique_filename os (fs w) target_dir filename
                      file_data with
              | Raise _ => (w, Raised)
              | Return None => (w, Returned)
              | Return (Some unique_filename) =>
                  if truthy unique_filename then
                    let save_path := OsPath.join target_dir unique_filename in
                    match os save_path, file_data with
                    | Accepted, Some data =>
                        (World (<[save_path := data]> (fs w))
                               (Counters (processed (stats w))
                                         (extracted (stats w) + 1)),
                         Returned)
                    | Accepted, None =>
                        (World (<[save_path := []]> (fs w)) (stats w), Raised)
                    | _, _ => (w, Raised)
                    end
                  else (w, Returned)
              end
            else (w, Returned)
        | None => (w, Returned)
        end
      else (w, Returned)
  end.

(** The loop over the parts ends at the first exception. *)
Fixpoint walk_parts (os : env) (target_dir : string)
    (walk : list walked_part) (w : world) : world * outcome :=
  match walk with
  | [] => (w, Returned)
  | p :: rest =>
      match for_part os target_dir w p with
      | (w', Returned) => walk_parts os target_dir rest w'
      | (w', Raised) => (w', Raised)
      end
  end.

(** One call of [extract_attachments_from_file], run without interruption:
    an exception leaves it before [stats['processed'] += 1], with the parts
    before it saved and counted. *)
Definition extract_attachments_from_file (os : env)
    (file : eml_file) (target_dir : string) (w : world) : world * outcome :=
  match file with
  | Broken => (w, Raised)
  | Parsed walk =>
      match walk_parts os target_dir walk w with
      | (w', Returned) => (mark_processed w', Returned)
      | (w', Raised) => (w', Raised)
      end
  end.

(** The workers run one after the other, in the order of submission; each
    future keeps how its call ended and nobody asks it. *)
Fixpoint run_sequential (os : env) (target_dir : string)
    (eml_files : list eml_file) (w : world) : world * list outcome :=
  match eml_files with
  | [] => (w, [])
  | file :: rest =>
      let '(w1, r) := extract_attachments_from_file os file target_dir w in
      let '(w2, rs) := run_sequential os target_dir rest w1 in
      (w2, r :: rs)
  end.

Definition extract_and_save_attachments_sequential (os : env)
    (eml_files : list eml_file) (target_dir : string) (fs0 : filesystem)
  : filesystem * (nat * nat) :=
  let w := (run_sequential os target_dir eml_files
              (World fs0 (Counters 0 0))).1 in
  (fs w, (processed (stats w), extracted (stats w))).

(** The name of [path] inside [target_dir], if it is spelled as a path of
    that directory. *)
Definition entry (target_dir path : string) : option string :=
  if String.prefix (target_dir +:+ "/") path
  then Some (Str.drop (String.length target_dir + 1) path)
  else None.

(** A target directory without subdirectories, on a file system whose file
    names hold at most 255 bytes: the directory itself is met under the
    empty name and the dot names, a file name within the limit can be
    opened for writing, a longer one and a path through a subdirectory
    cannot. *)
Definition flat (target_dir : string) : env := λ path,
  match entry target_dir path with
  | Some name =>
      if bool_decide (name ∈ [""; "."; ".."]) then Unreadable
      else if plain_name name && bool_decide (String.length name ≤ 255)
      then Accepted else Refused
  | None => Refused
  end.

End Os.

(** The operating system lets the attachment [a] through on [disk]: the
    allocation raises nothing and the name it answers can be opened for
    writing. *)
Definition accepts (os : Os.env) (target_dir : string) (disk : filesystem)
    (a : string * bytes) : Prop :=
  Os.make_unique_filename os disk target_dir a.1 (Some a.2)
  = Os.Return (make_unique_filename disk target_dir a.1 a.2)
  ∧ ∀ name, make_unique_filename disk target_dir a.1 a.2 = Some name →
            os (OsPath.join target_dir name) = Os.Accepted.

(** It lets every attachment of a run through, each on the disk the ones
    before it have left. *)
Fixpoint accepts_all (os : Os.env) (target_dir : string)
    (l : list (string * bytes)) (disk : filesystem) : Prop :=
  match l with
  | [] => True
  | a :: l' =>
      accepts os target_dir disk a
      ∧ accepts_all os target_dir l' (disk_step target_dir disk a)
  end.

(** How the call for a file ends where nothing is refused. *)
Definition outcome_of (file : message_file) : outcome :=
  match file with
  | Unparsable => Raised
  | Message _ => Returned
  end.

(** A file name of 255 bytes, the longest the file system of [Os.flat]
    takes: 251 letters and an extension. *)
Definition long_name : string :=
  string_of_list_ascii (repeat "a"%char 251) +:+ ".pdf".

(** The parts of a message file that parses. *)
Definition parts_of (file : Os.eml_file) : list Os.walked_part :=
  match file with
  | Os.Broken => []
  | Os.Parsed walk => walk
  end.

(** An attachment with a file name: the parts for which the loop body goes
    on to [make_unique_filename]. *)
Definition named_attachment (p : Os.walked_part) : bool :=
  match p with
  | Os.Walked content_disposition (Some filename) _ =>
      bool_decide (content_disposition = Some "attachment") && truthy filename
  | _ => false
  end.

(** No file name of the message files has a directory part. *)
Definition plain_part (p : Os.walked_part) : bool :=
  match p with
  | Os.Walked _ (Some filename) _ => plain_name filename
  | _ => true
  end.

Definition plain_files (eml_files : list Os.eml_file) : bool :=
  forallb (λ file, forallb plain_part (parts_of file)) eml_files.

(** The number of calls that ended in the given way. *)
Definition ended (r : outcome) (outcomes : list outcome) : nat :=
  length (filter (λ r', r' = r) outcomes).

(* ===================================================================== *)
(** * Properties of the digests *)
(* ===================================================================== *)

(** The test suite of RFC 1321, appendix A.5. *)
Example md5_empty : file_md5 [] = "d41d8cd98f00b204e9800998ecf8427e".
Proof. vm_compute. reflexivity. Qed.

Example md5_abc :
  file_md5 (String.list_byte_of_string "abc") = "900150983cd24fb0d6963f7d28e17f72".
Proof. vm_compute. reflexivity. Qed.

Example md5_digits :
  file_md5 (String.list_byte_of_string
    "12345678901234567890123456789012345678901234567890123456789012345678901234567890")
  = "57edf4a22be3c955ac49da2e2107b67a".
Proof. vm_compute. reflexivity. Qed.

(** The digest does not tell the two blocks apart. *)
Example md5_collision :
  collision_1 ≠ collision_2 ∧ file_md5 collision_1 = file_md5 collision_2.
Proof. compute_done. Qed.

(** The chunk loop feeds the whole file, in order, whatever the positive
    chunk size. *)
Lemma update_chunks_fed (size : nat) (f : bytes) (h : Hashlib.md5_object) :
  0 < size → Hashlib.fed (update_chunks size f h) = Hashlib.fed h ++ f.
Proof.
  intros Hsize. funelim (update_chunks size f h).
  - destruct f as [|x f]; [by rewrite app_nil_r |].
    destruct size; [lia | done].
  - rewrite H by done.
    simpl. rewrite <- app_assoc. f_equal.
    match goal with Ht : take _ _ = _ |- _ => rewrite <- Ht end.
    apply take_drop.
Qed.

(** C7: the digest streamed from a file in chunks of 4096 bytes is the digest
    of its content computed in memory: for a file at [file_path] holding
    exactly [data], [existing_file_md5] answers [file_md5 data]. *)
Theorem C7_existing_file_md5_is_file_md5
    (fs : filesystem) (file_path : string) (data : bytes) :
  fs !! file_path = Some data →
  existing_file_md5 fs file_path = Some (file_md5 data).
Proof.
  intros Hfile. unfold existing_file_md5, file_md5, Hashlib.hexdigest.
  rewrite Hfile. simpl. by rewrite update_chunks_fed by lia.
Qed.

Lemma C7_witness :
  existing_file_md5 {["extracted/report.pdf" := [x25; x50; x44; x46]]}
                    "extracted/report.pdf"
  = Some (file_md5 [x25; x50; x44; x46]).
Proof. apply C7_existing_file_md5_is_file_md5. reflexivity. Defined.

Lemma existing_file_md5_is_Some (fs : filesystem) (file_path : string) :
  os_path_exists fs file_path = true →
  ∃ data, fs !! file_path = Some data
          ∧ existing_file_md5 fs file_path = Some (file_md5 data).
Proof.
  unfold os_path_exists. intros [data Hd]%bool_decide_eq_true.
  exists data. split; [done |].
  unfold existing_file_md5, file_md5, Hashlib.hexdigest.
  rewrite Hd. simpl. by rewrite update_chunks_fed by lia.
Qed.

Lemma existing_file_md5_None (fs : filesystem) (file_path : string) :
  os_path_exists fs file_path = false → existing_file_md5 fs file_path = None.
Proof.
  unfold os_path_exists, existing_file_md5.
  intros Hn%bool_decide_eq_false. destruct (fs !! file_path) eqn:E; [|done].
  destruct Hn. eauto.
Qed.

(* ===================================================================== *)
(** * Properties of [os.path] *)
(* ===================================================================== *)

Lemma splitext_app (p base extension : string) :
  OsPath.splitext p = (base, extension) → base +:+ extension = p.
Proof.
  unfold OsPath.splitext. intros H.
  repeat case_match; simplify_eq;
    by rewrite ?Str.take_drop, ?Str.app_nil_r.
Qed.

Lemma unique_filename_ne_plain (base extension : string) (counter : nat) :
  unique_filename base extension counter ≠ base +:+ extension.
Proof.
  unfold unique_filename. intros H%(inj (String.app base)).
  apply (f_equal String.length) in H. rewrite !Str.length_app in H.
  simpl in H. lia.
Qed.

Lemma join_inj_same_head (target_dir p q : string) :
  Str.startswith p "/" = Str.startswith q "/" →
  OsPath.join target_dir p = OsPath.join target_dir q → p = q.
Proof.
  unfold OsPath.join. intros <-.
  destruct (Str.startswith p "/"); [done |]. destruct (_ || _); intros H.
  - by apply (inj (String.app target_dir)) in H.
  - by apply (inj (String.app target_dir)), (inj (String.app "/")) in H.
Qed.

Lemma join_length (target_dir p : string) :
  String.length p ≤ String.length (OsPath.join target_dir p).
Proof.
  unfold OsPath.join. repeat case_match; rewrite ?Str.length_app; lia.
Qed.

Lemma unique_path_ne_plain (target_dir base extension : string) (counter : nat) :
  unique_path target_dir base extension counter
  ≠ OsPath.join target_dir (base +:+ extension).
Proof.
  unfold unique_path. intros H.
  destruct (Str.startswith (base +:+ extension) "/") eqn:Habs.
  - pose proof (join_length target_dir (unique_filename base extension counter)) as Hl.
    rewrite H in Hl. unfold OsPath.join in Hl. rewrite Habs in Hl.
    unfold unique_filename in Hl. rewrite !Str.length_app in Hl.
    simpl in Hl. lia.
  - apply (unique_filename_ne_plain base extension counter).
    apply (join_inj_same_head target_dir); [| done].
    rewrite Habs. unfold unique_filename.
    destruct base as [|a base]; [reflexivity | exact Habs].
Qed.

(* ===================================================================== *)
(** * Properties of [make_unique_filename] *)
(* ===================================================================== *)

Section loop.
Context (fs : filesystem) (target_dir base extension new_md5 : string).

Lemma while_True_round (counter : nat) :
  while_True fs target_dir base extension new_md5 counter
  = if breaks fs target_dir base extension new_md5 counter
    then unique_filename base extension counter
    else while_True fs target_dir base extension new_md5 (S counter).
Proof.
  funelim (while_True fs target_dir base extension new_md5 counter);
    match goal with E : breaks _ _ _ _ _ _ = _ |- _ => by rewrite E end.
Qed.

(** From any counter the loop reaches a round that breaks, after at most
    as many rounds as there are files it has not looked at. *)
Lemma while_True_exit (counter : nat) :
  ∃ n, counter ≤ n ≤ counter + unvisited fs target_dir base extension counter
       ∧ breaks fs target_dir base extension new_md5 n = true
       ∧ (∀ k, counter ≤ k < n →
               breaks fs target_dir base extension new_md5 k = false)
       ∧ while_True fs target_dir base extension new_md5 counter
         = unique_filename base extension n.
Proof.
  funelim (while_True fs target_dir base extension new_md5 counter).
  - exists counter. repeat split; [lia | lia | done | intros; lia].
  - destruct H as (n & Hn & Hb & Hlow & Hres).
    match goal with E : breaks _ _ _ _ _ _ = false |- _ =>
      pose proof (unvisited_decreases _ _ _ _ _ _ E) as Hdec;
      pose proof E as Hc end.
    exists n. repeat split; [lia | lia | done | | done].
    intros k Hk. destruct (decide (k = counter)) as [-> | Hne]; [done |].
    apply Hlow. lia.
Qed.

(** The round at which the loop stops is the first that breaks. *)
Lemma while_True_first (counter n : nat) :
  counter ≤ n →
  breaks fs target_dir base extension new_md5 n = true →
  (∀ k, counter ≤ k < n →
        breaks fs target_dir base extension new_md5 k = false) →
  while_True fs target_dir base extension new_md5 counter
  = unique_filename base extension n.
Proof.
  intros Hle Hb Hlow.
  destruct (while_True_exit counter) as (m & Hm & Hbm & Hlowm & ->).
  f_equal. destruct (decide (m = n)) as [| Hne]; [done |].
  destruct (decide (m < n)).
  - rewrite Hlow in Hbm by lia. done.
  - rewrite Hlowm in Hb by lia. done.
Qed.
End loop.

(** C8: the numbered-suffix search terminates on every directory: the loop
    started at 1 leaves at some round [n], the first whose candidate name is
    free or holds the new digest, and [n] is at most one more than the number
    of files on disk. *)
Theorem C8_numbered_search_terminates
    (fs : filesystem) (target_dir base extension new_md5 : string) :
  ∃ n, 1 ≤ n ≤ S (size fs)
       ∧ breaks fs target_dir base extension new_md5 n = true
       ∧ (∀ k, 1 ≤ k < n →
               breaks fs target_dir base extension new_md5 k = false)
       ∧ while_True fs target_dir base extension new_md5 1
         = unique_filename base extension n.
Proof.
  destruct (while_True_exit fs target_dir base extension new_md5 1)
    as (n & Hn & Hb & Hlow & Hres).
  exists n. repeat split; [lia | | done | done | done].
  assert (unvisited fs target_dir base extension 1 ≤ size fs); [| lia].
  unfold unvisited. rewrite <- size_dom.
  apply subseteq_size. set_solver.
Qed.

Section allocation.
Context (fs : filesystem) (target_dir filename : string) (file_data : bytes).

Lemma make_unique_filename_free :
  os_path_exists fs (OsPath.join target_dir filename) = false →
  make_unique_filename fs target_dir filename file_data = Some filename.
Proof.
  intros H. unfold make_unique_filename.
  destruct (OsPath.splitext filename). by rewrite H.
Qed.

Lemma make_unique_filename_identical :
  existing_file_md5 fs (OsPath.join target_dir filename)
  = Some (file_md5 file_data) →
  make_unique_filename fs target_dir filename file_data = None.
Proof.
  intros H. unfold make_unique_filename.
  destruct (OsPath.splitext filename).
  destruct (os_path_exists _ _) eqn:E.
  - by rewrite bool_decide_eq_true_2.
  - apply existing_file_md5_None in E. congruence.
Qed.

Lemma make_unique_filename_numbered (base extension : string) :
  OsPath.splitext filename = (base, extension) →
  os_path_exists fs (OsPath.join target_dir filename) = true →
  existing_file_md5 fs (OsPath.join target_dir filename)
  ≠ Some (file_md5 file_data) →
  make_unique_filename fs target_dir filename file_data
  = Some (while_True fs target_dir base extension (file_md5 file_data) 1).
Proof.
  intros Hs He Hd. unfold make_unique_filename. rewrite Hs, He.
  by rewrite bool_decide_eq_false_2.
Qed.
End allocation.

Lemma truthy_unique_filename (base extension : string) (counter : nat) :
  truthy (unique_filename base extension counter) = true.
Proof.
  unfold truthy. apply negb_true_iff, bool_decide_eq_false. intros H.
  apply (f_equal String.length) in H. unfold unique_filename in H.
  rewrite !Str.length_app in H. simpl in H. lia.
Qed.

Lemma truthy_ne (s : string) : s ≠ "" → truthy s = true.
Proof. intros H. unfold truthy. by rewrite bool_decide_eq_false_2. Qed.

(** C6: when the plain name [<base><ext>] is free in the target directory the
    allocation answers that name; when it is taken by a file whose digest is
    that of the new content the allocation answers [None] (skip) and the
    attachment leaves the files and the counters as they were. *)
Theorem C6_plain_name_free_or_identical
    (w : world) (target_dir filename base extension : string)
    (file_data : bytes) :
  OsPath.splitext filename = (base, extension) →
  let original_path := OsPath.join target_dir (base +:+ extension) in
  (os_path_exists (fs w) original_path = false →
   make_unique_filename (fs w) target_dir filename file_data
   = Some (base +:+ extension))
  ∧ (os_path_exists (fs w) original_path = true →
     existing_file_md5 (fs w) original_path = Some (file_md5 file_data) →
     make_unique_filename (fs w) target_dir filename file_data = None
     ∧ for_part target_dir w (attachment filename file_data)
       = w).
Proof.
  intros Hs%splitext_app. subst filename. simpl. split.
  - apply make_unique_filename_free.
  - intros _ Hd.
    pose proof (make_unique_filename_identical _ _ _ _ Hd) as Hnone.
    split; [done |]. unfold for_part, to_save. simpl. rewrite Hnone.
    by repeat case_match.
Qed.
Lemma C6_witness :
  make_unique_filename ∅ "extracted" "report.pdf" [x25; x50; x44; x46]
  = Some "report.pdf"
  ∧ make_unique_filename {["extracted/report.pdf" := [x25; x50; x44; x46]]}
      "extracted" "report.pdf" [x25; x50; x44; x46]
    = None.
Proof.
  split.
  - apply (C6_plain_name_free_or_identical
             (World ∅ (Counters 0 0)) "extracted" "report.pdf" "report" ".pdf");
      reflexivity.
  - refine (proj1 (proj2 (C6_plain_name_free_or_identical
             (World {["extracted/report.pdf" := [x25; x50; x44; x46]]}
                    (Counters 0 0))
             "extracted" "report.pdf" "report" ".pdf" _ eq_refl) _ _)).
     + reflexivity.
     + (vm_compute; reflexivity).
Defined.
Lemma os_path_exists_md5 (fs : filesystem) (path : string) :
  os_path_exists fs path = bool_decide (is_Some (existing_file_md5 fs path)).
Proof.
  unfold os_path_exists, existing_file_md5. apply bool_decide_ext.
  destruct (fs !! path); simpl; split; intros [? ?]; eauto; done.
Qed.

(** The allocation looks at the directory only through the digests found
    under the plain name and the numbered names of its own family. *)
Lemma make_unique_filename_frame
    (fs1 fs2 : filesystem) (target_dir filename base extension : string)
    (file_data : bytes) :
  OsPath.splitext filename = (base, extension) →
  existing_file_md5 fs1 (OsPath.join target_dir filename)
  = existing_file_md5 fs2 (OsPath.join target_dir filename) →
  (∀ k, 1 ≤ k →
        existing_file_md5 fs1 (unique_path target_dir base extension k)
        = existing_file_md5 fs2 (unique_path target_dir base extension k)) →
  make_unique_filename fs1 target_dir filename file_data
  = make_unique_filename fs2 target_dir filename file_data.
Proof.
  intros Hs Hplain Hvar. unfold make_unique_filename.
  rewrite Hs, !os_path_exists_md5, Hplain.
  repeat case_match; try done. f_equal.
  destruct (while_True_exit fs1 target_dir base extension
              (file_md5 file_data) 1) as (n & Hn & Hb & Hlow & ->).
  symmetry. apply while_True_first; [lia | |].
  - rewrite <- Hb. unfold breaks.
    by rewrite !os_path_exists_md5, Hvar by lia.
  - intros k Hk. rewrite <- (Hlow k Hk). unfold breaks.
    by rewrite !os_path_exists_md5, Hvar by lia.
Qed.

Lemma for_part_attachment (target_dir filename : string) (file_data : bytes)
    (w : world) :
  filename ≠ "" →
  for_part target_dir w (attachment filename file_data)
  = match make_unique_filename (fs w) target_dir filename file_data with
    | Some unique_filename =>
        if truthy unique_filename
        then save target_dir w (unique_filename, file_data) else w
    | None => w
    end.
Proof.
  intros Hne. unfold for_part, to_save, attachment.
  cbn [get_content_disposition get_filename get_payload].
  rewrite bool_decide_eq_true_2, (truthy_ne _ Hne) by done.
  destruct (make_unique_filename _ _ _ _) as [u|]; [| done].
  by destruct (truthy u).
Qed.

(** When the plain name is taken by other content and the numbered name [n]
    holds the new digest, with every lower numbered name taken by other
    content, the loop breaks at [n] and the allocation answers that name
    instead of [None]: the attachment is written over the identical file and
    counted. *)
Lemma numbered_duplicate_not_skipped
    (w : world) (target_dir filename base extension : string)
    (file_data : bytes) (n : nat) :
  OsPath.splitext filename = (base, extension) →
  filename ≠ "" →
  os_path_exists (fs w) (OsPath.join target_dir filename) = true →
  existing_file_md5 (fs w) (OsPath.join target_dir filename)
  ≠ Some (file_md5 file_data) →
  1 ≤ n →
  existing_file_md5 (fs w) (unique_path target_dir base extension n)
  = Some (file_md5 file_data) →
  (∀ k, 1 ≤ k < n →
        breaks (fs w) target_dir base extension (file_md5 file_data) k = false) →
  make_unique_filename (fs w) target_dir filename file_data
  = Some (unique_filename base extension n)
  ∧ for_part target_dir w (attachment filename file_data)
    = World (<[unique_path target_dir base extension n := file_data]> (fs w))
            (Counters (processed (stats w)) (extracted (stats w) + 1)).
Proof.
  intros Hs Hne Hex Hplain Hn Hdup Hlow.
  assert (make_unique_filename (fs w) target_dir filename file_data
          = Some (unique_filename base extension n)) as Hmuf.
  { rewrite (make_unique_filename_numbered _ _ _ _ _ _ Hs Hex Hplain).
    f_equal. apply while_True_first; [done | | done].
    unfold breaks. rewrite Hdup, bool_decide_eq_true_2 by done.
    apply orb_true_r. }
  split; [done |].
  rewrite (for_part_attachment _ _ _ _ Hne), Hmuf.
  by rewrite truthy_unique_filename.
Qed.

(** C1 (the code departs from it): with [report.pdf] holding X and
    [report_1.pdf] holding Y on disk, an attachment [report.pdf] with content
    Y has the digest of the numbered variant and not that of the plain file;
    the allocation answers the name [report_1.pdf], not [None], so the file
    is written again and [extracted] goes from 0 to 1. *)
Theorem C1_numbered_duplicate_is_rewritten :
  let disk : filesystem :=
    <["extracted/report_1.pdf" := [x59]]> {["extracted/report.pdf" := [x58]]} in
  existing_file_md5 disk "extracted/report_1.pdf" = Some (file_md5 [x59])
  ∧ existing_file_md5 disk "extracted/report.pdf" ≠ Some (file_md5 [x59])
  ∧ make_unique_filename disk "extracted" "report.pdf" [x59]
    = Some "report_1.pdf"
  ∧ to_save disk "extracted" (attachment "report.pdf" [x59])
    = Some ("report_1.pdf", [x59])
  ∧ for_part "extracted" (World disk (Counters 0 0))
      (attachment "report.pdf" [x59])
    = World disk (Counters 0 1).
Proof. vm_compute. repeat split; done. Qed.

(* ===================================================================== *)
(** * Properties of the thread pool *)
(* ===================================================================== *)

Module PoolFacts.
Import Pool.

Lemma step_middle (target_dir : string) (w w' : world) (t t' : task)
    (before after : list task) :
  task_step target_dir w t = Some (w', t') →
  step target_dir (w, before ++ t :: after) (w', before ++ t' :: after).
Proof.
  intros Ht.
  replace (before ++ t' :: after)
    with (<[length before := t']> (before ++ t :: after)).
  - eapply step_task; [| done]. by apply list_lookup_middle.
  - rewrite insert_app_r_alt by lia. by rewrite Nat.sub_diag.
Qed.

(** A schedule that runs to its end describes an execution of the pool. *)
Lemma run_schedule_sound (target_dir : string) (schedule : list nat)
    (c c' : world * list task) :
  run_schedule target_dir schedule c = Some c' → rtc (step target_dir) c c'.
Proof.
  revert c. induction schedule as [|i schedule IH]; intros [w ts] H.
  - simpl in H. by simplify_eq.
  - simpl in H. destruct (ts !! i) as [t|] eqn:Hi; [| done]. simpl in H.
    destruct (task_step target_dir w t) as [[w1 t1]|] eqn:Ht; [| done].
    simpl in H. eapply rtc_l; [| by apply IH]. by eapply step_task.
Qed.

(** A worker left alone carries its call to the end. *)
Lemma walking_runs (target_dir : string) (rest : list part) (w : world)
    (before after : list task) :
  rtc (step target_dir) (w, before ++ Walking rest :: after)
      (mark_processed (fold_left (for_part target_dir) rest w),
       before ++ Done Returned :: after).
Proof.
  revert w. induction rest as [|p rest IH]; intros w.
  - apply rtc_once. by apply step_middle.
  - simpl. unfold for_part at 2.
    destruct (to_save (fs w) target_dir p) as [s|] eqn:Hs.
    + eapply rtc_l; [apply step_middle; simpl; by rewrite Hs |].
      eapply rtc_l; [by apply step_middle |]. apply IH.
    + eapply rtc_l; [apply step_middle; simpl; by rewrite Hs |]. apply IH.
Qed.

Lemma task_runs (target_dir : string) (file : message_file) (w : world)
    (before after : list task) :
  rtc (step target_dir) (w, before ++ Submitted file :: after)
      ((extract_attachments_from_file file target_dir w).1,
       before ++ Done (extract_attachments_from_file file target_dir w).2
         :: after).
Proof.
  destruct file as [|walk]; simpl.
  - apply rtc_once. by apply step_middle.
  - eapply rtc_l; [by apply step_middle |]. apply walking_runs.
Qed.

(** Running the files one after the other is one of the executions of the
    pool. *)
Lemma sequential_run_is_a_pool_run (target_dir : string)
    (eml_files : list message_file) (w : world) (before : list task) :
  ∃ finished,
    forallb is_done finished = true
    ∧ rtc (step target_dir) (w, before ++ (Submitted <$> eml_files))
          (run_sequential target_dir eml_files w, before ++ finished).
Proof.
  revert w before. induction eml_files as [|file eml_files IH]; intros w before.
  - exists []. split; [done |]. simpl. done.
  - destruct (IH (extract_attachments_from_file file target_dir w).1
                 (before ++ [Done (extract_attachments_from_file
                                     file target_dir w).2]))
      as (finished & Hdone & Hrun).
    exists (Done (extract_attachments_from_file file target_dir w).2
              :: finished).
    split; [done |]. simpl. etrans; [apply task_runs |].
    rewrite <- !app_assoc in Hrun. exact Hrun.
Qed.

Lemma sequential_result_is_a_result (target_dir : string)
    (eml_files : list message_file) (fs0 : filesystem) :
  extract_and_save_attachments eml_files target_dir fs0
    (extract_and_save_attachments_sequential eml_files target_dir fs0).1
    (extract_and_save_attachments_sequential eml_files target_dir fs0).2.
Proof.
  destruct (sequential_run_is_a_pool_run target_dir eml_files
              (World fs0 (Counters 0 0)) []) as (finished & Hdone & Hrun).
  by exists (run_sequential target_dir eml_files (World fs0 (Counters 0 0))),
            finished.
Qed.

End PoolFacts.

Lemma unparsable_task_is_inert (target_dir : string)
    (c c' : world * list Pool.task) :
  rtc (Pool.step target_dir) c c' →
  ∀ before t after,
    c.2 = before ++ t :: after → raised_or_waiting t →
    ∃ before' t' after',
      c'.2 = before' ++ t' :: after'
      ∧ length before' = length before
      ∧ raised_or_waiting t'
      ∧ rtc (Pool.step target_dir) (c.1, before ++ after)
            (c'.1, before' ++ after').
Proof.
  induction 1 as [c | c c1 c' Hstep Hrtc IH]; intros before t after Hc Ht.
  - exists before, t, after. by repeat split.
  - destruct Hstep as [i w ts x w1 x1 Hi Hx]. simpl in *. subst ts.
    destruct (decide (i < length before)) as [Hlt | Hge].
    + rewrite lookup_app_l in Hi by done.
      destruct (IH (<[i := x1]> before) t after) as
        (before' & t' & after' & Hc' & Hlen & Ht' & Hrun).
      { simpl. by rewrite insert_app_l. }
      { done. }
      exists before', t', after'. rewrite length_insert in Hlen.
      repeat split; try done. eapply rtc_l; [| exact Hrun]. simpl.
      rewrite <- insert_app_l by done.
      eapply Pool.step_task; [| done]. by rewrite lookup_app_l.
    + destruct (decide (i = length before)) as [-> | Hne].
      * rewrite list_lookup_middle in Hi by done. simplify_eq.
        destruct Ht as [-> | ->]; [| done]. simpl in Hx. simplify_eq.
        destruct (IH before (Pool.Done Raised) after) as
          (before' & t' & after' & Hc' & Hlen & Ht' & Hrun).
        { simpl. rewrite insert_app_r_alt by lia.
          by rewrite Nat.sub_diag. }
        { by right. }
        exists before', t', after'. by repeat split.
      * assert (∃ j, i = length before + S j) as [j ->]
          by (exists (i - length before - 1); lia).
        rewrite lookup_app_r in Hi by lia.
        replace (length before + S j - length before) with (S j) in Hi by lia.
        simpl in Hi.
        destruct (IH before t (<[j := x1]> after)) as
          (before' & t' & after' & Hc' & Hlen & Ht' & Hrun).
        { simpl. rewrite insert_app_r_alt by lia.
          by replace (length before + S j - length before) with (S j) by lia. }
        { done. }
        exists before', t', after'. repeat split; try done.
        eapply rtc_l; [| exact Hrun]. simpl.
        replace (before ++ <[j := x1]> after)
          with (<[length before + j := x1]> (before ++ after)).
        -- eapply Pool.step_task; [| done].
           rewrite lookup_app_r by lia.
           by replace (length before + j - length before) with j by lia.
        -- rewrite insert_app_r_alt by lia.
           by replace (length before + j - length before) with j by lia.
Qed.

(** C4, as the code has it: a message file that cannot be parsed is skipped;
    its call ends with the exception and touches nothing, so no attachment of
    it is counted and [processed] is not incremented for it; and whatever the
    scheduling, the files and counters the run reaches are reached by the run
    of the other files alone. *)
Theorem C4_unparsable_file_is_skipped
    (target_dir : string) (w w' : world) (before after ts' : list Pool.task) :
  rtc (Pool.step target_dir)
      (w, before ++ Pool.Submitted Unparsable :: after) (w', ts') →
  extract_attachments_from_file Unparsable target_dir w = (w, Raised)
  ∧ ∃ before' t' after',
      ts' = before' ++ t' :: after'
      ∧ length before' = length before
      ∧ raised_or_waiting t'
      ∧ rtc (Pool.step target_dir) (w, before ++ after) (w', before' ++ after').
Proof.
  intros Hrun. split; [done |].
  apply (unparsable_task_is_inert _ _ _ Hrun before
           (Pool.Submitted Unparsable) after); [done | by left].
Qed.

Lemma no_task_no_step (target_dir : string) (w : world)
    (c : world * list Pool.task) :
  rtc (Pool.step target_dir) (w, []) c → c = (w, []).
Proof.
  intros H. remember (w, @nil Pool.task) as c0 eqn:E. revert E.
  induction H as [| c0 c1 c2 Hstep _ _]; [done |]. intros ->.
  inversion Hstep; simplify_eq.
Qed.

Lemma C4_witness :
  ∃ before' t' after',
    [Pool.Done Returned; Pool.Done Raised] = before' ++ t' :: after'
    ∧ length before' = 1
    ∧ raised_or_waiting t'
    ∧ rtc (Pool.step "extracted")
          (World ∅ (Counters 0 0), [Pool.Submitted a_eml] ++ [])
          (World {["extracted/report.pdf" := [x58]]} (Counters 1 1),
           before' ++ after').
Proof.
  refine (proj2 (C4_unparsable_file_is_skipped "extracted"
            (World ∅ (Counters 0 0))
            (World {["extracted/report.pdf" := [x58]]} (Counters 1 1))
            [Pool.Submitted a_eml] [] [Pool.Done Returned; Pool.Done Raised]
            _)).
  apply (PoolFacts.run_schedule_sound "extracted" [1; 0; 0; 0; 0; 0]).
  vm_compute. reflexivity.
Defined.

(** C4 as stated fails: a run over one unparsable file returns
    [processed = 0], under the sequential schedule and under every other. *)
Lemma C4_processed_not_incremented :
  Pool.extract_and_save_attachments_sequential [Unparsable] "extracted" ∅
  = (∅, (0, 0))
  ∧ ∀ fs' result,
      Pool.extract_and_save_attachments [Unparsable] "extracted" ∅ fs' result →
      result = (0, 0).
Proof.
  split; [reflexivity |].
  intros fs' result (w & ts & Hrun & _ & -> & ->).
  destruct (unparsable_task_is_inert _ _ _ Hrun []
              (Pool.Submitted Unparsable) [])
    as (before' & t' & after' & _ & _ & _ & Hrest); [done | by left |].
  simpl in Hrest. apply no_task_no_step in Hrest.
  injection Hrest as -> _. reflexivity.
Qed.

(** C2 as stated fails: with both workers past [make_unique_filename] before
    either writes, [a.eml] and [b.eml] are both saved as [report.pdf]; the
    run returns 2 extracted files and leaves one on disk, content X lost. *)
Lemma C2_lost_write :
  Pool.extract_and_save_attachments [a_eml; b_eml] "extracted" ∅
    {["extracted/report.pdf" := [x59]]} (2, 2)
  ∧ size ({["extracted/report.pdf" := [x59]]} : filesystem) = 1
  ∧ file_md5 [x58] ≠ file_md5 [x59].
Proof.
  split; [| split; [reflexivity | compute_done]].
  exists (World {["extracted/report.pdf" := [x59]]} (Counters 2 2)),
         [Pool.Done Returned; Pool.Done Returned].
  repeat split.
  apply (PoolFacts.run_schedule_sound "extracted"
           [0; 1; 0; 1; 0; 1; 0; 1; 0; 1]).
  vm_compute. reflexivity.
Qed.

Lemma for_part_saved_part (target_dir : string) (w : world) (p : part) :
  for_part target_dir w p
  = match saved_part p with
    | Some a => save_attachment target_dir w a
    | None => w
    end.
Proof.
  unfold save_attachment, for_part, to_save, saved_part, attachment.
  destruct p as [disposition [filename|] payload]; simpl;
    destruct (bool_decide (disposition = Some "attachment")); try done.
  destruct (truthy filename) eqn:Ht; simpl; [| done].
  by rewrite Ht.
Qed.

Lemma for_part_same_output (target_dir : string) (w1 w2 : world) (p : part) :
  same_output w1 w2 →
  same_output (for_part target_dir w1 p) (for_part target_dir w2 p).
Proof.
  intros [Hfs He]. unfold for_part. rewrite Hfs.
  destruct (to_save (fs w2) target_dir p) as [[name data]|]; [| done].
  unfold same_output. simpl. by rewrite Hfs, He.
Qed.

Lemma fold_save_same_output (target_dir : string)
    (l : list (string * bytes)) (w1 w2 : world) :
  same_output w1 w2 →
  same_output (fold_left (save_attachment target_dir) l w1)
              (fold_left (save_attachment target_dir) l w2).
Proof.
  revert w1 w2. induction l as [|a l IH]; intros w1 w2 H; [done |].
  simpl. apply IH. by apply for_part_same_output.
Qed.

Lemma fold_for_part_saved (target_dir : string) (walk : list part) (w : world) :
  fold_left (for_part target_dir) walk w
  = fold_left (save_attachment target_dir) (omap saved_part walk) w.
Proof.
  revert w. induction walk as [|p walk IH]; intros w; [done |].
  simpl. rewrite for_part_saved_part.
  destruct (saved_part p); simpl; apply IH.
Qed.

(** For the files and [extracted], a sequential run is the run of the
    attachments of its files, one after the other. *)
Lemma run_sequential_attachments (target_dir : string)
    (eml_files : list message_file) (w : world) :
  same_output (Pool.run_sequential target_dir eml_files w)
    (fold_left (save_attachment target_dir)
       (concat (attachments_of <$> eml_files)) w).
Proof.
  revert w. induction eml_files as [|file eml_files IH]; intros w; [done |].
  simpl. rewrite fold_left_app.
  destruct (IH (extract_attachments_from_file file target_dir w).1)
    as [Hfs He].
  pose proof (fold_save_same_output target_dir
    (concat (attachments_of <$> eml_files))
    (extract_attachments_from_file file target_dir w).1
    (fold_left (save_attachment target_dir) (attachments_of file) w))
    as Hsame.
  destruct Hsame as [Hfs' He'].
  - destruct file as [|walk]; simpl; [done |].
    by rewrite fold_for_part_saved.
  - unfold same_output. change (Pool.run_sequential target_dir (file :: eml_files) w)
      with (Pool.run_sequential target_dir eml_files
              (extract_attachments_from_file file target_dir w).1).
    by rewrite Hfs, He.
Qed.

Lemma digests_differ (contents : list bytes) (i j : nat) (x y : bytes) :
  NoDup (file_md5 <$> contents) →
  contents !! i = Some x → contents !! j = Some y → i ≠ j →
  Some (file_md5 x) ≠ Some (file_md5 y).
Proof.
  intros Hnd Hi Hj Hne Heq. apply Hne.
  assert (file_md5 x = file_md5 y) as Hxy by congruence.
  apply (NoDup_lookup _ i j (file_md5 x) Hnd);
    rewrite list_lookup_fmap; [by rewrite Hi | by rewrite Hj, Hxy].
Qed.

Lemma lookup_md5 (disk : filesystem) (path : string) (data : bytes) :
  disk !! path = Some data →
  os_path_exists disk path = true
  ∧ existing_file_md5 disk path = Some (file_md5 data).
Proof.
  intros H. assert (os_path_exists disk path = true) as Hex.
  { apply bool_decide_eq_true. eauto. }
  split; [done |].
  destruct (existing_file_md5_is_Some _ _ Hex) as (d & Hd & ->). congruence.
Qed.

Section same_name.
Context (target_dir filename base extension : string).
Context (Hsplit : OsPath.splitext filename = (base, extension)).

Lemma slot_inj : Inj (=) (=) (slot target_dir filename base extension).
Proof.
  pose proof (splitext_app _ _ _ Hsplit) as Happ.
  intros [|i] [|j] H; simpl in H; [done | | |].
  - rewrite <- Happ in H. symmetry in H.
    by apply unique_path_ne_plain in H.
  - rewrite <- Happ in H. by apply unique_path_ne_plain in H.
  - by apply unique_path_inj in H.
Qed.

(** With the first [n] contents in place, the next one goes to the next
    name. *)
Lemma save_attachment_next_slot (contents : list bytes) (w : world)
    (n : nat) (data : bytes) :
  filename ≠ "" →
  NoDup (file_md5 <$> contents) →
  contents !! n = Some data →
  placed target_dir filename base extension contents n (fs w) →
  save_attachment target_dir w (filename, data)
  = World (<[slot target_dir filename base extension n := data]> (fs w))
          (Counters (processed (stats w)) (extracted (stats w) + 1)).
Proof.
  intros Hne Hnd Hn [Hlow Hfree]. unfold save_attachment. simpl.
  rewrite (for_part_attachment _ _ _ _ Hne).
  assert (∀ i, i < n → 
    os_path_exists (fs w) (slot target_dir filename base extension i) = true
    ∧ existing_file_md5 (fs w) (slot target_dir filename base extension i)
      ≠ Some (file_md5 data)) as Hother.
  { intros i Hi.
    destruct (lookup_lt_is_Some_2 contents i) as [d Hd].
    { apply lookup_lt_Some in Hn. lia. }
    destruct (lookup_md5 _ _ _ (Hlow i d Hi Hd)) as [Hex ->].
    split; [done |]. apply (digests_differ contents i n); [done..| lia]. }
  assert (os_path_exists (fs w) (slot target_dir filename base extension n)
          = false) as Hfree_n.
  { apply bool_decide_eq_false. rewrite (Hfree n) by lia.
    by intros [? ?]. }
  destruct n as [|n].
  - simpl in Hfree_n.
    by rewrite (make_unique_filename_free _ _ _ _ Hfree_n), (truthy_ne _ Hne).
  - destruct (Hother 0) as [Hex Hd]; [lia |]. simpl in Hex, Hd.
    rewrite (make_unique_filename_numbered _ _ _ _ _ _ Hsplit Hex Hd).
    rewrite (while_True_first _ _ _ _ _ 1 (S n)).
    + by rewrite truthy_unique_filename.
    + lia.
    + unfold breaks. simpl in Hfree_n. by rewrite Hfree_n.
    + intros k Hk. destruct (Hother k) as [Hexk Hdk]; [lia |].
      destruct k as [|k]; [lia |]. simpl in Hexk, Hdk.
      unfold breaks. rewrite Hexk. by rewrite bool_decide_eq_false_2.
Qed.

Lemma placed_next (contents : list bytes) (disk : filesystem) (n : nat)
    (data : bytes) :
  contents !! n = Some data →
  placed target_dir filename base extension contents n disk →
  placed target_dir filename base extension contents (S n)
         (<[slot target_dir filename base extension n := data]> disk).
Proof.
  intros Hn [Hlow Hfree]. split.
  - intros i d Hi Hd. destruct (decide (i = n)) as [-> | Hne].
    + rewrite lookup_insert_eq. congruence.
    + rewrite lookup_insert_ne; [apply Hlow; [lia | done] |].
      intros H%slot_inj. congruence.
  - intros i Hi. rewrite lookup_insert_ne; [apply Hfree; lia |].
    intros H%slot_inj. lia.
Qed.

(** Saved one after the other, contents with pairwise distinct digests and
    the same name fill the names of the family in order. *)
Lemma same_name_fills_slots (contents done todo : list bytes) (w : world) :
  filename ≠ "" →
  NoDup (file_md5 <$> contents) →
  contents = done ++ todo →
  placed target_dir filename base extension contents (length done) (fs w) →
  let w' := fold_left (save_attachment target_dir)
              ((λ data, (filename, data)) <$> todo) w in
  placed target_dir filename base extension contents (length contents) (fs w')
  ∧ size (fs w') = size (fs w) + length todo
  ∧ extracted (stats w') = extracted (stats w) + length todo
  ∧ fs w ⊆ fs w'.
Proof.
  intros Hne Hnd. revert done w.
  induction todo as [|data todo IH]; intros done w Hc Hp;
    rewrite ?fmap_cons; cbn [fold_left length].
  - simpl. subst contents. rewrite app_nil_r in *.
    split; [exact Hp | split; [lia | split; [lia | done]]].
  - assert (contents !! length done = Some data) as Hn.
    { subst contents. by apply list_lookup_middle. }
    rewrite (save_attachment_next_slot contents w (length done) data)
      by done.
    destruct (IH (done ++ [data])
      (World (<[slot target_dir filename base extension (length done) := data]>
                (fs w))
             (Counters (processed (stats w)) (extracted (stats w) + 1))))
      as (Hp' & Hsize & Hex & Hsub).
    { by rewrite <- app_assoc. }
    { rewrite length_app. simpl. rewrite Nat.add_1_r.
      by apply placed_next. }
    simpl in *. assert (fs w !! slot target_dir filename base extension
                                 (length done) = None) as Hfree
      by (apply Hp; lia).
    rewrite map_size_insert_None in Hsize by done.
    split; [exact Hp' | split; [lia | split; [lia |]]].
    etrans; [| exact Hsub]. by apply insert_subseteq.
Qed.

End same_name.

Lemma saved_part_truthy (p : part) (filename : string) (data : bytes) :
  saved_part p = Some (filename, data) → filename ≠ "".
Proof.
  unfold saved_part. intros H Hempty.
  destruct (bool_decide _); [| done].
  destruct (get_filename p) as [name|]; [| done].
  destruct (truthy name) eqn:Ht; [| done]. by simplify_eq.
Qed.

Lemma attachment_names_truthy (eml_files : list message_file)
    (filename : string) (data : bytes) :
  (filename, data) ∈ concat (attachments_of <$> eml_files) → filename ≠ "".
Proof.
  intros (l & Hl & Hin)%list_elem_of_In%in_concat.
  apply list_elem_of_In, list_elem_of_fmap in Hl as ([|walk] & -> & _);
    apply list_elem_of_In in Hin; simpl in Hin.
  - by apply elem_of_nil in Hin.
  - apply list_elem_of_omap in Hin as (p & _ & Hp).
    by apply saved_part_truthy in Hp.
Qed.

(** Attachments with the same name whose contents differ but collide are
    taken for duplicates, also when the files are processed one after the
    other: the second is skipped and one file is left. *)
Example colliding_contents_are_merged :
  Pool.extract_and_save_attachments_sequential
    [Message [attachment "report.pdf" collision_1];
     Message [attachment "report.pdf" collision_2]] "extracted" ∅
  = ({["extracted/report.pdf" := collision_1]}, (2, 1)).
Proof. compute_done. Qed.

(* ===================================================================== *)
(** * Running the extraction twice *)
(* ===================================================================== *)

Lemma breaks_md5 (disk : filesystem)
    (target_dir base extension new_md5 : string) (counter : nat) :
  breaks disk target_dir base extension new_md5 counter
  = match existing_file_md5 disk
            (unique_path target_dir base extension counter) with
    | None => true
    | Some digest => bool_decide (digest = new_md5)
    end.
Proof.
  unfold breaks. rewrite os_path_exists_md5.
  destruct (existing_file_md5 _ _) as [digest|] eqn:E.
  - rewrite (bool_decide_eq_true_2 (is_Some _)) by (by eexists).
    apply bool_decide_ext. split; congruence.
  - rewrite (bool_decide_eq_false_2 (is_Some _)); [done |]. by intros [? ?].
Qed.

(** The three ways [make_unique_filename] returns. *)
Lemma make_unique_filename_cases (disk : filesystem)
    (target_dir filename base extension : string) (file_data : bytes) :
  OsPath.splitext filename = (base, extension) →
  (existing_file_md5 disk (OsPath.join target_dir filename) = None
   ∧ make_unique_filename disk target_dir filename file_data = Some filename)
  ∨ (existing_file_md5 disk (OsPath.join target_dir filename)
     = Some (file_md5 file_data)
     ∧ make_unique_filename disk target_dir filename file_data = None)
  ∨ (∃ digest k,
       existing_file_md5 disk (OsPath.join target_dir filename) = Some digest
       ∧ digest ≠ file_md5 file_data
       ∧ 1 ≤ k
       ∧ breaks disk target_dir base extension (file_md5 file_data) k = true
       ∧ (∀ j, 1 ≤ j < k →
               breaks disk target_dir base extension (file_md5 file_data) j
               = false)
       ∧ make_unique_filename disk target_dir filename file_data
         = Some (unique_filename base extension k)).
Proof.
  intros Hs.
  destruct (os_path_exists disk (OsPath.join target_dir filename)) eqn:Hex.
  - destruct (existing_file_md5_is_Some _ _ Hex) as (data & _ & Hd).
    destruct (decide (file_md5 data = file_md5 file_data)) as [Heq | Hne].
    + right; left. rewrite Hd, Heq. split; [done |].
      apply make_unique_filename_identical. by rewrite Hd, Heq.
    + right; right.
      destruct (while_True_exit disk target_dir base extension
                  (file_md5 file_data) 1) as (k & Hk & Hb & Hlow & Hres).
      exists (file_md5 data), k. repeat split; [done | done | lia | done | done |].
      rewrite (make_unique_filename_numbered _ _ _ _ _ _ Hs Hex).
      * by rewrite Hres.
      * rewrite Hd. congruence.
  - left. split; [by apply existing_file_md5_None |].
    by apply make_unique_filename_free.
Qed.

Lemma existing_file_md5_insert (disk : filesystem) (path : string)
    (data : bytes) :
  existing_file_md5 (<[path := data]> disk) path = Some (file_md5 data).
Proof.
  apply lookup_md5, lookup_insert_eq.
Qed.

Lemma existing_file_md5_insert_ne (disk : filesystem) (path other : string)
    (data : bytes) :
  path ≠ other →
  existing_file_md5 (<[path := data]> disk) other
  = existing_file_md5 disk other.
Proof.
  intros Hne. unfold existing_file_md5. by rewrite lookup_insert_ne.
Qed.

(** Writing to a free path, or over a file with the same digest, keeps the
    digests of the files that were there. *)
Lemma keeps_digests_insert (disk : filesystem) (path : string) (data : bytes) :
  existing_file_md5 disk path = None
  ∨ existing_file_md5 disk path = Some (file_md5 data) →
  keeps_digests disk (<[path := data]> disk).
Proof.
  intros H other digest Ho.
  destruct (decide (path = other)) as [<- | Hne].
  - rewrite existing_file_md5_insert. destruct H; congruence.
  - by rewrite existing_file_md5_insert_ne.
Qed.

Lemma lookup_md5_exists (disk : filesystem) (path digest : string) :
  existing_file_md5 disk path = Some digest →
  os_path_exists disk path = true.
Proof.
  intros H. rewrite os_path_exists_md5. apply bool_decide_eq_true. eauto.
Qed.

Lemma keeps_digests_trans (d1 d2 d3 : filesystem) :
  keeps_digests d1 d2 → keeps_digests d2 d3 → keeps_digests d1 d3.
Proof. intros H12 H23 path digest H. by apply H23, H12. Qed.

Lemma breaks_keeps (disk disk' : filesystem)
    (target_dir base extension new_md5 : string) (counter : nat)
    (digest : string) :
  keeps_digests disk disk' →
  existing_file_md5 disk (unique_path target_dir base extension counter)
  = Some digest →
  breaks disk' target_dir base extension new_md5 counter
  = breaks disk target_dir base extension new_md5 counter.
Proof. intros Hk Hd. by rewrite !breaks_md5, (Hk _ _ Hd), Hd. Qed.

Lemma breaks_false_md5 (disk : filesystem)
    (target_dir base extension new_md5 : string) (counter : nat) :
  breaks disk target_dir base extension new_md5 counter = false →
  ∃ digest,
    existing_file_md5 disk (unique_path target_dir base extension counter)
    = Some digest.
Proof. rewrite breaks_md5. destruct (existing_file_md5 _ _); eauto; done. Qed.

(** Once settled, an allocation stays the same as long as the files on disk
    keep their digests. *)
Lemma settled_stable (target_dir : string) (disk disk' : filesystem)
    (a : string * bytes) :
  settled target_dir disk a → keeps_digests disk disk' →
  make_unique_filename disk' target_dir a.1 a.2
  = make_unique_filename disk target_dir a.1 a.2
  ∧ settled target_dir disk' a.
Proof.
  destruct a as [filename file_data]. simpl. intros Hset Hk.
  assert (make_unique_filename disk' target_dir filename file_data
          = make_unique_filename disk target_dir filename file_data) as Heq.
  { destruct (OsPath.splitext filename) as [base extension] eqn:Hs.
    destruct (make_unique_filename_cases disk target_dir filename base
                extension file_data Hs)
      as [[Hfree Hm] | [[Hsame Hm] | (digest & k & Hd & Hne & Hk1 & Hb & Hlow & Hm)]].
    - destruct Hset as [Hn | (name & Hn & Hdn)]; simpl in *; [congruence |].
      rewrite Hm in Hn. simplify_eq; congruence.
    - rewrite Hm. by apply make_unique_filename_identical, Hk.
    - rewrite Hm.
      destruct Hset as [Hn | (name & Hn & Hdn)]; simpl in *; [congruence |].
      rewrite Hm in Hn. simplify_eq.
      change (OsPath.join target_dir (unique_filename base extension k))
        with (unique_path target_dir base extension k) in Hdn.
      pose proof (lookup_md5_exists disk' (OsPath.join target_dir filename)
                    digest (Hk _ _ Hd)) as Hex'.
      rewrite (make_unique_filename_numbered _ _ _ _ _ _ Hs Hex').
      + f_equal. apply while_True_first; [done | |].
        * by rewrite (breaks_keeps disk disk' _ _ _ _ _ _ Hk Hdn).
        * intros j Hj. destruct (breaks_false_md5 _ _ _ _ _ _ (Hlow j Hj))
            as [dj Hdj].
          rewrite (breaks_keeps disk disk' _ _ _ _ _ _ Hk Hdj). by apply Hlow.
      + rewrite (Hk _ _ Hd). congruence. }
  split; [done |]. unfold settled. simpl. rewrite Heq.
  destruct Hset as [Hn | (name & Hn & Hdn)]; [by left | right].
  exists name. split; [done |]. by apply Hk.
Qed.

(** After an attachment has gone through the loop body, its allocation is
    [None] or the name of a file that holds exactly its bytes. *)
Lemma disk_step_settles (target_dir : string) (disk : filesystem)
    (a : string * bytes) :
  make_unique_filename (disk_step target_dir disk a) target_dir a.1 a.2 = None
  ∨ ∃ name,
      make_unique_filename (disk_step target_dir disk a) target_dir a.1 a.2
      = Some name
      ∧ disk_step target_dir disk a !! OsPath.join target_dir name = Some a.2.
Proof.
  destruct a as [filename file_data]. unfold disk_step. simpl.
  destruct (OsPath.splitext filename) as [base extension] eqn:Hs.
  destruct (make_unique_filename_cases disk target_dir filename base
              extension file_data Hs)
    as [[Hfree Hm] | [[Hsame Hm] | (digest & k & Hd & Hne & Hk1 & Hb & Hlow & Hm)]];
    rewrite Hm.
  - left. apply make_unique_filename_identical, existing_file_md5_insert.
  - by left.
  - right. exists (unique_filename base extension k).
    change (OsPath.join target_dir (unique_filename base extension k))
      with (unique_path target_dir base extension k).
    split; [| apply lookup_insert_eq].
    assert (unique_path target_dir base extension k
            ≠ OsPath.join target_dir filename) as Hplain.
    { rewrite <- (splitext_app _ _ _ Hs). apply unique_path_ne_plain. }
    rewrite (make_unique_filename_numbered _ _ _ _ _ _ Hs).
    + f_equal. apply while_True_first; [done | |].
      * by rewrite breaks_md5, existing_file_md5_insert,
          bool_decide_eq_true_2.
      * intros j Hj. rewrite <- (Hlow j Hj), !breaks_md5.
        rewrite existing_file_md5_insert_ne; [done |].
        intros H%unique_path_inj. lia.
    + apply (lookup_md5_exists _ _ digest).
      by rewrite existing_file_md5_insert_ne.
    + rewrite existing_file_md5_insert_ne by done. congruence.
Qed.

Lemma disk_step_idempotent (target_dir : string) (disk : filesystem)
    (a : string * bytes) :
  disk_step target_dir (disk_step target_dir disk a) a
  = disk_step target_dir disk a.
Proof.
  destruct (disk_step_settles target_dir disk a) as [Hn | (name & Hn & Hl)];
    unfold disk_step at 1; rewrite Hn; [done |]. by apply insert_id.
Qed.

Lemma disk_step_settled (target_dir : string) (disk : filesystem)
    (a : string * bytes) :
  settled target_dir (disk_step target_dir disk a) a.
Proof.
  destruct (disk_step_settles target_dir disk a) as [Hn | (name & Hn & Hl)];
    [by left | right].
  exists name. split; [done |]. by apply lookup_md5.
Qed.

Lemma disk_step_keeps_digests (target_dir : string) (disk : filesystem)
    (a : string * bytes) :
  keeps_digests disk (disk_step target_dir disk a).
Proof.
  destruct a as [filename file_data]. unfold disk_step. simpl.
  destruct (OsPath.splitext filename) as [base extension] eqn:Hs.
  destruct (make_unique_filename_cases disk target_dir filename base
              extension file_data Hs)
    as [[Hfree Hm] | [[Hsame Hm] | (digest & k & Hd & Hne & Hk1 & Hb & Hlow & Hm)]];
    rewrite Hm.
  - apply keeps_digests_insert. by left.
  - by intros path digest H.
  - apply keeps_digests_insert. rewrite breaks_md5 in Hb.
    change (OsPath.join target_dir (unique_filename base extension k))
      with (unique_path target_dir base extension k).
    destruct (existing_file_md5 disk
                (unique_path target_dir base extension k)) as [dk|];
      [right | by left].
    apply bool_decide_eq_true in Hb. by subst dk.
Qed.

Lemma run_keeps_digests (target_dir : string) (l : list (string * bytes))
    (disk : filesystem) :
  keeps_digests disk (fold_left (disk_step target_dir) l disk).
Proof.
  revert disk. induction l as [|a l IH]; intros disk; simpl.
  - by intros path digest H.
  - eapply keeps_digests_trans; [apply disk_step_keeps_digests | apply IH].
Qed.

(** At the end of a run every attachment of the run is settled. *)
Lemma run_settles (target_dir : string) (l : list (string * bytes))
    (disk : filesystem) (a : string * bytes) :
  a ∈ l → settled target_dir (fold_left (disk_step target_dir) l disk) a.
Proof.
  revert disk. induction l as [|a0 l IH]; intros disk Hin.
  - by apply elem_of_nil in Hin.
  - simpl. apply elem_of_cons in Hin as [-> | Hin]; [| by apply IH].
    apply (settled_stable target_dir (disk_step target_dir disk a0));
      [apply disk_step_settled | apply run_keeps_digests].
Qed.

Lemma run_of_settled (target_dir : string) (l : list (string * bytes))
    (disk disk' : filesystem) :
  (∀ a, a ∈ l → settled target_dir disk a) →
  keeps_digests disk disk' →
  fold_left (disk_step target_dir) l disk'
  = write_all (rewrites target_dir disk l) disk'.
Proof.
  revert disk'. induction l as [|a l IH]; intros disk' Hset Hk; [done |].
  assert (settled target_dir disk a) as Ha by (apply Hset; left).
  destruct (settled_stable _ _ _ _ Ha Hk) as [Heq _].
  simpl. unfold disk_step at 2. unfold rewrites. simpl. rewrite Heq.
  destruct Ha as [Hn | (name & Hn & Hd)]; rewrite Hn; simpl.
  - apply IH; [| done]. intros a' Ha'. apply Hset. by right.
  - apply IH; [intros a' Ha'; apply Hset; by right |].
    intros path digest Hp.
    destruct (decide (OsPath.join target_dir name = path)) as [<- | Hne].
    + rewrite existing_file_md5_insert. congruence.
    + rewrite existing_file_md5_insert_ne by done. by apply Hk.
Qed.

Lemma write_all_insert (writes : list (string * bytes)) (disk : filesystem)
    (path : string) (data : bytes) :
  write_all writes (<[path := data]> disk)
  = if decide (path ∈ writes.*1) then write_all writes disk
    else <[path := data]> (write_all writes disk).
Proof.
  revert disk. induction writes as [|[q u] writes IH]; intros disk.
  - done.
  - rewrite fmap_cons. unfold write_all in *. cbn [fold_left fst snd].
    destruct (decide (q = path)) as [-> | Hne].
    + rewrite insert_insert_eq, decide_True; [done | left].
    + rewrite insert_insert_ne by done. rewrite IH.
      destruct (decide (path ∈ writes.*1)) as [Hin | Hnin].
      * rewrite decide_True; [done | by right].
      * rewrite decide_False; [done |].
        intros [? | ?]%elem_of_cons; congruence.
Qed.

(** Run again over the files it has produced, a sequence of attachments
    leaves every file as it is. *)
Lemma run_twice (target_dir : string) (l : list (string * bytes))
    (disk : filesystem) :
  fold_left (disk_step target_dir) l (fold_left (disk_step target_dir) l disk)
  = fold_left (disk_step target_dir) l disk.
Proof.
  induction l as [|a l IH] using rev_ind; [done |].
  rewrite !fold_left_app. simpl.
  set (d' := fold_left (disk_step target_dir) l disk) in *.
  assert (∀ a', a' ∈ l → settled target_dir d' a') as Hset
    by (intros a' Ha'; by apply run_settles).
  rewrite (run_of_settled target_dir l d' (disk_step target_dir d' a) Hset)
    by apply disk_step_keeps_digests.
  rewrite (run_of_settled target_dir l d' d' Hset) in IH
    by (by intros path digest H).
  unfold disk_step at 2.
  destruct (make_unique_filename d' target_dir a.1 a.2) as [name|] eqn:Hm.
  - rewrite write_all_insert, IH. case_decide.
    + unfold disk_step. by rewrite Hm.
    + replace (<[OsPath.join target_dir name := a.2]> d')
        with (disk_step target_dir d' a) by (unfold disk_step; by rewrite Hm).
      apply disk_step_idempotent.
  - rewrite IH. unfold disk_step. by rewrite Hm.
Qed.

Lemma make_unique_filename_truthy (disk : filesystem)
    (target_dir filename name : string) (file_data : bytes) :
  filename ≠ "" →
  make_unique_filename disk target_dir filename file_data = Some name →
  truthy name = true.
Proof.
  intros Hne Hm. destruct (OsPath.splitext filename) as [base extension] eqn:Hs.
  destruct (make_unique_filename_cases disk target_dir filename base
              extension file_data Hs)
    as [[_ Hm'] | [[_ Hm'] | (digest & k & _ & _ & _ & _ & _ & Hm')]];
    rewrite Hm' in Hm; simplify_eq.
  - by apply truthy_ne.
  - apply truthy_unique_filename.
Qed.

Lemma save_attachment_disk_step (target_dir : string) (w : world)
    (a : string * bytes) :
  a.1 ≠ "" →
  save_attachment target_dir w a
  = World (disk_step target_dir (fs w) a)
          (Counters (processed (stats w))
                    (extracted (stats w)
                     + match make_unique_filename (fs w) target_dir a.1 a.2 with
                       | Some _ => 1
                       | None => 0
                       end)).
Proof.
  intros Hne. unfold save_attachment, disk_step.
  rewrite (for_part_attachment _ _ _ _ Hne).
  destruct (make_unique_filename _ _ _ _) as [name|] eqn:Hm.
  - by rewrite (make_unique_filename_truthy _ _ _ _ _ Hne Hm).
  - destruct w as [disk [p e]]. simpl. by rewrite Nat.add_0_r.
Qed.

Lemma fs_fold_save_attachment (target_dir : string)
    (l : list (string * bytes)) (w : world) :
  (∀ a, a ∈ l → a.1 ≠ "") →
  fs (fold_left (save_attachment target_dir) l w)
  = fold_left (disk_step target_dir) l (fs w).
Proof.
  revert w. induction l as [|a l IH]; intros w Hne; [done |].
  simpl. rewrite IH by (intros a' Ha'; apply Hne; by right).
  by rewrite save_attachment_disk_step by (apply Hne; left).
Qed.

(** On a disk where its attachments are settled, a run counts the
    attachments whose allocation answers a name. *)
Lemma extracted_of_settled (target_dir : string) (l : list (string * bytes))
    (disk : filesystem) (w : world) :
  (∀ a, a ∈ l → a.1 ≠ "" ∧ settled target_dir disk a) →
  keeps_digests disk (fs w) →
  extracted (stats (fold_left (save_attachment target_dir) l w))
  = extracted (stats w) + length (rewrites target_dir disk l).
Proof.
  revert w. induction l as [|a l IH]; intros w Hset Hk; [simpl; lia |].
  destruct (Hset a) as [Hne Ha]; [left |].
  destruct (settled_stable _ _ _ _ Ha Hk) as [Heq _].
  cbn [fold_left]. rewrite IH.
  - rewrite (save_attachment_disk_step _ _ _ Hne). simpl.
    unfold rewrites. simpl. rewrite Heq.
    destruct (make_unique_filename disk target_dir a.1 a.2); simpl; lia.
  - intros a' Ha'. apply Hset. by right.
  - rewrite (save_attachment_disk_step _ _ _ Hne). simpl.
    eapply keeps_digests_trans; [exact Hk | apply disk_step_keeps_digests].
Qed.

Lemma files_of_sequential_run (target_dir : string)
    (eml_files : list message_file) (fs0 : filesystem) :
  (Pool.extract_and_save_attachments_sequential eml_files target_dir fs0).1
  = fold_left (disk_step target_dir)
      (concat (attachments_of <$> eml_files)) fs0.
Proof.
  destruct (run_sequential_attachments target_dir eml_files
              (World fs0 (Counters 0 0))) as [Hfs _].
  unfold Pool.extract_and_save_attachments_sequential. simpl. rewrite Hfs.
  apply fs_fold_save_attachment.
  intros [filename data] Hin. by apply attachment_names_truthy in Hin.
Qed.

(** What a second run returns as extracted is the number of attachments
    whose allocation on the directory left by the first run answers a name:
    those held by a numbered variant. *)
Lemma second_run_extracted_count (target_dir : string)
    (eml_files : list message_file) (fs0 : filesystem) :
  let first :=
    Pool.extract_and_save_attachments_sequential eml_files target_dir fs0 in
  let second :=
    Pool.extract_and_save_attachments_sequential eml_files target_dir
      first.1 in
  second.2.2
  = length (rewrites target_dir first.1
              (concat (attachments_of <$> eml_files))).
Proof.
  intros first second. unfold second, first.
  rewrite !files_of_sequential_run.
  destruct (run_sequential_attachments target_dir eml_files
    (World (fold_left (disk_step target_dir)
              (concat (attachments_of <$> eml_files)) fs0) (Counters 0 0)))
    as [_ He].
  unfold Pool.extract_and_save_attachments_sequential. simpl.
  rewrite He, (extracted_of_settled target_dir _
    (fold_left (disk_step target_dir)
       (concat (attachments_of <$> eml_files)) fs0)); [done | |].
  - intros [filename data] Hin. split.
    + by apply attachment_names_truthy in Hin.
    + by apply run_settles.
  - by intros path digest H.
Qed.

(** C3, as the code has it: run a second time, one file after the other, on
    the directory the first such run has produced, the script leaves every
    output file as it is: the same files with the same contents. *)
Theorem C3_second_run_leaves_files_unchanged
    (target_dir : string) (eml_files : list message_file)
    (fs0 : filesystem) :
  let first :=
    Pool.extract_and_save_attachments_sequential eml_files target_dir fs0 in
  let second :=
    Pool.extract_and_save_attachments_sequential eml_files target_dir
      first.1 in
  second.1 = first.1.
Proof.
  intros first second. unfold second, first.
  rewrite !files_of_sequential_run. apply run_twice.
Qed.

(** C3 as stated fails twice over. Run one file after the other on [a.eml]
    and [b.eml], the second run saves [report_1.pdf] again and returns 1
    extracted file, not 0. And when the workers of the first run race for
    [report.pdf], content X is lost and the second run adds [report_1.pdf]:
    the set of output files changes. *)
Lemma C3_second_run_is_not_silent :
  (let first :=
     Pool.extract_and_save_attachments_sequential
       [a_eml; b_eml] "extracted" ∅ in
   let second :=
     Pool.extract_and_save_attachments_sequential
       [a_eml; b_eml] "extracted" first.1 in
   first = (<["extracted/report_1.pdf" := [x59]]>
              {["extracted/report.pdf" := [x58]]}, (2, 2))
   ∧ second = (first.1, (2, 1)))
  ∧ Pool.extract_and_save_attachments [a_eml; b_eml] "extracted" ∅
      {["extracted/report.pdf" := [x59]]} (2, 2)
  ∧ Pool.extract_and_save_attachments [a_eml; b_eml] "extracted"
      {["extracted/report.pdf" := [x59]]}
      (<["extracted/report_1.pdf" := [x58]]>
         {["extracted/report.pdf" := [x59]]}) (2, 1)
  ∧ ({["extracted/report.pdf" := [x59]]} : filesystem)
    ≠ <["extracted/report_1.pdf" := [x58]]> {["extracted/report.pdf" := [x59]]}.
Proof.
  split; [intros first second; compute_done |].
  split; [| split; [| compute_done]].
  - exists (World {["extracted/report.pdf" := [x59]]} (Counters 2 2)),
           [Pool.Done Returned; Pool.Done Returned].
    repeat split.
    apply (PoolFacts.run_schedule_sound "extracted"
             [0; 1; 0; 1; 0; 1; 0; 1; 0; 1]).
    vm_compute. reflexivity.
  - pose proof (PoolFacts.sequential_result_is_a_result "extracted"
                  [a_eml; b_eml] {["extracted/report.pdf" := [x59]]}) as Hrun.
    assert (Pool.extract_and_save_attachments_sequential [a_eml; b_eml]
              "extracted" {["extracted/report.pdf" := [x59]]}
            = (<["extracted/report_1.pdf" := [x58]]>
                 {["extracted/report.pdf" := [x59]]}, (2, 1))) as Heq
      by compute_done.
    by rewrite Heq in Hrun.
Qed.

(* ===================================================================== *)
(** * Further properties of the allocation *)
(* ===================================================================== *)

(** X1: the allocation never answers the name of a file that holds other
    content: the path of an answered name is free, or holds the digest of
    the new content. *)
Theorem X1_answered_name_is_free_or_identical
    (disk : filesystem) (target_dir filename name : string)
    (file_data : bytes) :
  make_unique_filename disk target_dir filename file_data = Some name →
  existing_file_md5 disk (OsPath.join target_dir name) = None
  ∨ existing_file_md5 disk (OsPath.join target_dir name)
    = Some (file_md5 file_data).
Proof.
  intros Hm. destruct (OsPath.splitext filename) as [base extension] eqn:Hs.
  destruct (make_unique_filename_cases disk target_dir filename base
              extension file_data Hs)
    as [[Hfree Hm'] | [[_ Hm'] | (digest & k & _ & _ & _ & Hb & _ & Hm')]];
    rewrite Hm' in Hm; simplify_eq.
  - by left.
  - rewrite breaks_md5 in Hb.
    change (OsPath.join target_dir (unique_filename base extension k))
      with (unique_path target_dir base extension k).
    destruct (existing_file_md5 disk
                (unique_path target_dir base extension k)) as [d|];
      [right | by left].
    apply bool_decide_eq_true in Hb. by subst d.
Qed.

Lemma X1_witness :
  existing_file_md5 {["extracted/report.pdf" := [x58]]}
    (OsPath.join "extracted" "report_1.pdf") = None
  ∨ existing_file_md5 {["extracted/report.pdf" := [x58]]}
      (OsPath.join "extracted" "report_1.pdf") = Some (file_md5 [x59]).
Proof.
  apply (X1_answered_name_is_free_or_identical
           {["extracted/report.pdf" := [x58]]} "extracted" "report.pdf").
  vm_compute. reflexivity.
Defined.

(** X2: an answered name is the desired name itself or a numbered name of
    its family with a counter of at least 1, and for a non-empty desired
    name it is never the empty string, so the caller's truth test of the
    answer fails on [None] alone. *)
Theorem X2_answer_is_plain_or_numbered
    (disk : filesystem) (target_dir filename base extension name : string)
    (file_data : bytes) :
  OsPath.splitext filename = (base, extension) →
  make_unique_filename disk target_dir filename file_data = Some name →
  (name = filename ∨ ∃ n, 1 ≤ n ∧ name = unique_filename base extension n)
  ∧ (filename ≠ "" → truthy name = true).
Proof.
  intros Hs Hm.
  destruct (make_unique_filename_cases disk target_dir filename base
              extension file_data Hs)
    as [[_ Hm'] | [[_ Hm'] | (digest & k & _ & _ & Hk & _ & _ & Hm')]];
    rewrite Hm' in Hm; simplify_eq.
  - split; [by left | apply truthy_ne].
  - split; [right; by exists k | intros _; apply truthy_unique_filename].
Qed.

Lemma X2_witness :
  ("report_1.pdf" = "report.pdf"
   ∨ ∃ n, 1 ≤ n ∧ "report_1.pdf" = unique_filename "report" ".pdf" n)
  ∧ ("report.pdf" ≠ "" → truthy "report_1.pdf" = true).
Proof.
  apply (X2_answer_is_plain_or_numbered
           {["extracted/report.pdf" := [x58]]} "extracted" "report.pdf"
           "report" ".pdf" "report_1.pdf" [x59]).
  - reflexivity.
  - vm_compute. reflexivity.
Defined.

(** X3: the paths the allocation can try are pairwise distinct: two counters
    give two paths, and no numbered path is the path of the desired name. *)
Theorem X3_candidate_paths_distinct
    (target_dir filename base extension : string) :
  OsPath.splitext filename = (base, extension) →
  (∀ m n, unique_path target_dir base extension m
          = unique_path target_dir base extension n → m = n)
  ∧ (∀ n, unique_path target_dir base extension n
          ≠ OsPath.join target_dir filename).
Proof.
  intros Hs. split.
  - intros m n H. by apply unique_path_inj in H.
  - intros n. rewrite <- (splitext_app _ _ _ Hs). apply unique_path_ne_plain.
Qed.

Lemma X3_witness :
  (∀ m n, unique_path "extracted" "a.tar" ".gz" m
          = unique_path "extracted" "a.tar" ".gz" n → m = n)
  ∧ (∀ n, unique_path "extracted" "a.tar" ".gz" n
          ≠ OsPath.join "extracted" "a.tar.gz").
Proof. apply X3_candidate_paths_distinct. reflexivity. Defined.

(** X4: the allocation answers [None] exactly when the file under the
    desired name holds the digest of the new content, and the desired name
    itself exactly when its path is free: a digest match on a numbered
    variant is never answered by [None]. *)
Theorem X4_skip_only_through_plain_name
    (disk : filesystem) (target_dir filename : string) (file_data : bytes) :
  (make_unique_filename disk target_dir filename file_data = None
   ↔ existing_file_md5 disk (OsPath.join target_dir filename)
     = Some (file_md5 file_data))
  ∧ (make_unique_filename disk target_dir filename file_data = Some filename
     ↔ os_path_exists disk (OsPath.join target_dir filename) = false).
Proof.
  destruct (OsPath.splitext filename) as [base extension] eqn:Hs.
  pose proof (splitext_app _ _ _ Hs) as Happ.
  destruct (make_unique_filename_cases disk target_dir filename base
              extension file_data Hs)
    as [[Hfree Hm] | [[Hsame Hm] | (digest & k & Hd & Hne & _ & _ & _ & Hm)]];
    rewrite Hm, os_path_exists_md5.
  - rewrite Hfree. split; split; done.
  - rewrite Hsame. split; split; done.
  - rewrite Hd. split; split; try done.
    + intros [= ->]. done.
    + intros [= H]. rewrite <- Happ in H.
      by apply unique_filename_ne_plain in H.
Qed.

(* ===================================================================== *)
(** * Further properties of [extract_attachments_from_file] *)
(* ===================================================================== *)

(** X5: a part gone through the loop body twice in a row leaves the files
    as the first pass left them: the second pass finds the content on disk
    and creates no further file. *)
Theorem X5_same_part_twice (target_dir : string) (w : world) (p : part) :
  fs (for_part target_dir (for_part target_dir w p) p)
  = fs (for_part target_dir w p).
Proof.
  rewrite !for_part_saved_part.
  destruct (saved_part p) as [[filename data]|] eqn:Hp; [| done].
  pose proof (saved_part_truthy _ _ _ Hp) as Hne.
  rewrite !save_attachment_disk_step by done. simpl.
  apply disk_step_idempotent.
Qed.

(** X6: a message none of whose parts is an attachment with a non-empty file
    name is processed without a write: the files and [extracted] stay, and
    [processed] goes up by one. *)
Theorem X6_message_without_attachments
    (target_dir : string) (walk : list part) (w : world) :
  (∀ p, p ∈ walk →
        get_content_disposition p ≠ Some "attachment"
        ∨ get_filename p = None ∨ get_filename p = Some "") →
  extract_attachments_from_file (Message walk) target_dir w
  = (World (fs w) (Counters (processed (stats w) + 1) (extracted (stats w))),
     Returned).
Proof.
  intros Hnone. simpl. unfold mark_processed.
  assert (fold_left (for_part target_dir) walk w = w) as ->; [| done].
  induction walk as [|p walk IH]; [done |].
  simpl. assert (for_part target_dir w p = w) as ->.
  { unfold for_part, to_save.
    destruct (Hnone p) as [Hd | [Hf | Hf]]; [left | | |].
    - by rewrite bool_decide_eq_false_2.
    - rewrite Hf. by case_bool_decide.
    - rewrite Hf. by case_bool_decide. }
  apply IH. intros q Hq. apply Hnone. by right.
Qed.

Lemma X6_witness :
  extract_attachments_from_file
    (Message [Part None None []; Part (Some "inline") (Some "logo.png") [x58];
              Part (Some "attachment") None [x59];
              Part (Some "attachment") (Some "") [x5a]])
    "extracted" (World ∅ (Counters 0 0))
  = (World ∅ (Counters 1 0), Returned).
Proof.
  apply (X6_message_without_attachments "extracted" _ (World ∅ (Counters 0 0))).
  intros p Hp. repeat (apply elem_of_cons in Hp as [-> | Hp]); simpl.
  - by left.
  - by left.
  - right; by left.
  - right; by right.
  - by apply elem_of_nil in Hp.
Defined.

(* ===================================================================== *)
(** * Further properties of a sequential run *)
(* ===================================================================== *)

Lemma for_part_processed (target_dir : string) (w : world) (p : part) :
  processed (stats (for_part target_dir w p)) = processed (stats w).
Proof.
  unfold for_part. by destruct (to_save _ _ _) as [[name data]|].
Qed.

Lemma fold_for_part_processed (target_dir : string) (walk : list part)
    (w : world) :
  processed (stats (fold_left (for_part target_dir) walk w))
  = processed (stats w).
Proof.
  revert w. induction walk as [|p walk IH]; intros w; [done |].
  simpl. by rewrite IH, for_part_processed.
Qed.

Lemma save_attachment_accounts (target_dir : string) (w : world)
    (a : string * bytes) :
  let w' := save_attachment target_dir w a in
  extracted (stats w) ≤ extracted (stats w') ≤ extracted (stats w) + 1
  ∧ size (fs w) ≤ size (fs w')
  ∧ size (fs w') + extracted (stats w) ≤ size (fs w) + extracted (stats w').
Proof.
  unfold save_attachment, for_part.
  destruct (to_save _ _ _) as [[name data]|]; simpl; [| lia].
  destruct (fs w !! OsPath.join target_dir name) as [old|] eqn:Hold.
  - rewrite map_size_insert_Some by done. lia.
  - rewrite map_size_insert_None by done. lia.
Qed.

Lemma fold_save_attachment_accounts (target_dir : string)
    (l : list (string * bytes)) (w : world) :
  let w' := fold_left (save_attachment target_dir) l w in
  extracted (stats w) ≤ extracted (stats w') ≤ extracted (stats w) + length l
  ∧ size (fs w) ≤ size (fs w')
  ∧ size (fs w') + extracted (stats w) ≤ size (fs w) + extracted (stats w').
Proof.
  revert w. induction l as [|a l IH]; intros w; simpl; [lia |].
  pose proof (save_attachment_accounts target_dir w a) as Ha.
  pose proof (IH (save_attachment target_dir w a)) as Hl.
  simpl in *. lia.
Qed.

(** X8: a run that takes the files one after the other never removes a file
    that was in the target directory and never replaces it by content with
    another digest. *)
Theorem X8_sequential_run_keeps_existing_files
    (target_dir : string) (eml_files : list message_file)
    (fs0 : filesystem) (path : string) (data : bytes) :
  fs0 !! path = Some data →
  ∃ data',
    (Pool.extract_and_save_attachments_sequential eml_files target_dir fs0).1
      !! path = Some data'
    ∧ file_md5 data' = file_md5 data.
Proof.
  intros Hpath. rewrite files_of_sequential_run.
  pose proof (run_keeps_digests target_dir
                (concat (attachments_of <$> eml_files)) fs0 path
                (file_md5 data)) as Hk.
  destruct (lookup_md5 _ _ _ Hpath) as [_ Hd]. specialize (Hk Hd).
  destruct (existing_file_md5_is_Some _ _ (lookup_md5_exists _ _ _ Hk))
    as (data' & Hl & Hd').
  exists data'. split; [done |]. congruence.
Qed.

Lemma X8_witness :
  ∃ data',
    (Pool.extract_and_save_attachments_sequential [a_eml; b_eml] "extracted"
       {["extracted/report.pdf" := [x5a]]}).1
      !! "extracted/report.pdf" = Some data'
    ∧ file_md5 data' = file_md5 [x5a].
Proof.
  apply X8_sequential_run_keeps_existing_files. reflexivity.
Defined.


(* ===================================================================== *)
(** * Further properties of [extract_and_save_attachments] *)
(* ===================================================================== *)

Lemma str_drop_app (prefix suffix : string) :
  Str.drop (String.length prefix) (prefix +:+ suffix) = suffix.
Proof. by induction prefix as [|a prefix IH]. Qed.

Lemma str_endswith_app (prefix suffix : string) :
  str_endswith (prefix +:+ suffix) suffix = true.
Proof.
  unfold str_endswith. apply bool_decide_eq_true.
  rewrite Str.length_app.
  replace (String.length prefix + String.length suffix - String.length suffix)
    with (String.length prefix) by lia.
  apply str_drop_app.
Qed.

Lemma str_endswith_inv (s suffix : string) :
  str_endswith s suffix = true → ∃ prefix, s = prefix +:+ suffix.
Proof.
  unfold str_endswith. intros H%bool_decide_eq_true.
  exists (Str.take (String.length s - String.length suffix) s).
  pose proof (Str.take_drop (String.length s - String.length suffix) s) as Htd.
  by rewrite H in Htd.
Qed.

Lemma append_assoc (s1 s2 s3 : string) :
  (s1 +:+ s2) +:+ s3 = s1 +:+ s2 +:+ s3.
Proof.
  induction s1 as [|a s1 IH]; [done |].
  change (String a ((s1 +:+ s2) +:+ s3) = String a (s1 +:+ s2 +:+ s3)).
  by rewrite IH.
Qed.

(** X10: every path of the list of message files is the join of a walked
    directory with one of its files, that file name ends with [.eml], and so
    does the path. *)
Theorem X10_eml_files_end_with_eml
    (walk : list (string * list string * list string)) (path : string) :
  path ∈ eml_files walk →
  str_endswith path ".eml" = true
  ∧ ∃ root dirs files file,
      (root, dirs, files) ∈ walk ∧ file ∈ files
      ∧ str_endswith file ".eml" = true
      ∧ path = OsPath.join root file.
Proof.
  unfold eml_files. intros Hin.
  apply list_elem_of_bind in Hin as ([[root dirs] files] & Hin & Hw).
  apply list_elem_of_bind in Hin as (file & Hin & Hf).
  destruct (str_endswith file ".eml") eqn:He; [| by apply elem_of_nil in Hin].
  apply list_elem_of_singleton in Hin as ->. split.
  - destruct (str_endswith_inv _ _ He) as [prefix ->].
    unfold OsPath.join. repeat case_match;
      rewrite <- ?append_assoc; apply str_endswith_app.
  - by exists root, dirs, files, file.
Qed.

Lemma X10_witness :
  str_endswith "mail/inbox/a.eml" ".eml" = true
  ∧ ∃ root dirs files file,
      (root, dirs, files)
        ∈ [("mail", ["inbox"], ["notes.txt"]);
           ("mail/inbox", [], ["a.eml"; "a.EML"])]
      ∧ file ∈ files
      ∧ str_endswith file ".eml" = true
      ∧ "mail/inbox/a.eml" = OsPath.join root file.
Proof.
  apply (X10_eml_files_end_with_eml
           [("mail", ["inbox"], ["notes.txt"]);
            ("mail/inbox", [], ["a.eml"; "a.EML"])]).
  apply (bool_decide_unpack _). vm_compute. exact I.
Defined.

(** X11: with no message file to process the run writes nothing and returns
    [(0, 0)], and this is its only result. *)
Theorem X11_empty_run (target_dir : string) (fs0 fs' : filesystem)
    (result : nat * nat) :
  Pool.extract_and_save_attachments [] target_dir fs0 fs' result
  ↔ fs' = fs0 ∧ result = (0, 0).
Proof.
  split.
  - intros (w & ts & Hrun & _ & -> & ->).
    apply no_task_no_step in Hrun. by simplify_eq.
  - intros [-> ->]. exists (World fs0 (Counters 0 0)), []. by repeat split.
Qed.

(** X12: in whatever order the workers move, no file of the target
    directory is ever removed. *)
Theorem X12_pool_never_removes_a_file
    (target_dir : string) (c c' : world * list Pool.task) :
  rtc (Pool.step target_dir) c c' → dom (fs c.1) ⊆ dom (fs c'.1).
Proof.
  induction 1 as [c | c c1 c' Hstep _ IH]; [done |].
  etrans; [| exact IH]. destruct Hstep as [i w ts t w1 t1 _ Ht]. simpl.
  destruct t as [[|walk] | [|p rest] | [name data] rest | r];
    simpl in Ht; repeat case_match; simplify_eq; simpl; try done.
  rewrite dom_insert. set_solver.
Qed.

Lemma X12_witness :
  dom (fs (Pool.start {["extracted/old.bin" := [x58]]} [a_eml; b_eml]).1)
  ⊆ dom (fs (World (<["extracted/report.pdf" := [x59]]>
                     {["extracted/old.bin" := [x58]]}) (Counters 2 2),
            [Pool.Done Returned; Pool.Done Returned]).1).
Proof.
  apply (X12_pool_never_removes_a_file "extracted").
  apply (PoolFacts.run_schedule_sound "extracted"
           [0; 1; 0; 1; 0; 1; 0; 1; 0; 1]).
  vm_compute. reflexivity.
Defined.

(** X13: among the numbered names the answer is the first that is free or
    holds the new digest: when the allocation answers the numbered name [n],
    the desired name and every numbered name below [n] are taken by files
    with another digest. *)
Theorem X13_lower_numbers_are_taken
    (disk : filesystem) (target_dir filename base extension : string)
    (file_data : bytes) (n : nat) :
  OsPath.splitext filename = (base, extension) →
  make_unique_filename disk target_dir filename file_data
  = Some (unique_filename base extension n) →
  1 ≤ n
  ∧ (∃ digest,
       existing_file_md5 disk (OsPath.join target_dir filename) = Some digest
       ∧ digest ≠ file_md5 file_data)
  ∧ ∀ k, 1 ≤ k < n →
         ∃ digest,
           existing_file_md5 disk (unique_path target_dir base extension k)
           = Some digest
           ∧ digest ≠ file_md5 file_data.
Proof.
  intros Hs Hm.
  destruct (make_unique_filename_cases disk target_dir filename base
              extension file_data Hs)
    as [[_ Hm'] | [[_ Hm'] | (digest & k & Hd & Hne & Hk & _ & Hlow & Hm')]];
    rewrite Hm' in Hm; [| done |]; injection Hm as Hm.
  - rewrite <- (splitext_app _ _ _ Hs) in Hm.
    symmetry in Hm. by apply unique_filename_ne_plain in Hm.
  - apply unique_filename_inj in Hm as ->.
    split; [done |]. split; [by exists digest |].
    intros j Hj. specialize (Hlow j Hj). rewrite breaks_md5 in Hlow.
    destruct (existing_file_md5 disk
                (unique_path target_dir base extension j)) as [dj|];
      [| done].
    exists dj. split; [done |]. by apply bool_decide_eq_false in Hlow.
Qed.

Lemma X13_witness :
  1 ≤ 2
  ∧ (∃ digest,
       existing_file_md5
         (<["extracted/report_1.pdf" := [x59]]>
            {["extracted/report.pdf" := [x58]]})
         (OsPath.join "extracted" "report.pdf") = Some digest
       ∧ digest ≠ file_md5 [x5a])
  ∧ ∀ k, 1 ≤ k < 2 →
         ∃ digest,
           existing_file_md5
             (<["extracted/report_1.pdf" := [x59]]>
                {["extracted/report.pdf" := [x58]]})
             (unique_path "extracted" "report" ".pdf" k) = Some digest
           ∧ digest ≠ file_md5 [x5a].
Proof.
  apply (X13_lower_numbers_are_taken _ "extracted" "report.pdf").
  - reflexivity.
  - vm_compute. reflexivity.
Defined.

(* ===================================================================== *)
(** * Properties of the command line *)
(* ===================================================================== *)

(** X14: the script ends with an [IndexError] exactly when it is called with
    [-v] as its single argument: the check of the number of arguments lets
    this call through and [sys.argv[2]] is then read. *)
Theorem X14_lone_flag_raises (argv : list string) :
  main argv = IndexError ↔ ∃ prog, argv = [prog; "-v"].
Proof.
  unfold main. split.
  - destruct argv as [|prog [|a1 [|a2 [|a3 rest]]]]; simpl;
      repeat case_bool_decide; try done.
    intros _. exists prog. by subst.
  - intros [prog ->]. reflexivity.
Qed.

(** X15: when the script goes on to extract, the verbose flag is set exactly
    when [-v] is among the words of the command line, the start directory is
    the first argument, or the second when the first is [-v], and it is [-v]
    itself only for the arguments [-v -v]. *)
Theorem X15_start_directory_and_flag
    (argv : list string) (start_directory : string) (verbose : bool) :
  main argv = Extracts start_directory verbose →
  verbose = bool_decide ("-v" ∈ argv)
  ∧ ((argv !! 1 = Some start_directory ∧ start_directory ≠ "-v")
     ∨ (argv !! 1 = Some "-v" ∧ argv !! 2 = Some start_directory))
  ∧ (length argv = 2 ∨ length argv = 3)
  ∧ (start_directory = "-v" → ∃ prog, argv = [prog; "-v"; "-v"]).
Proof.
  unfold main.
  destruct argv as [|prog [|a1 [|a2 [|a3 rest]]]]; simpl;
    repeat case_bool_decide; intros Hmain; simplify_eq.
  all: split; [done |]; split; [first [by left | by right] |].
  all: split; [first [by left | by right] |].
  all: first [done | intros ->; by eexists].
Qed.

Lemma X15_witness :
  true = bool_decide ("-v" ∈ ["eml-extractor.py"; "-v"; "mail"])
  ∧ ((["eml-extractor.py"; "-v"; "mail"] !! 1 = Some "mail" ∧ "mail" ≠ "-v")
     ∨ (["eml-extractor.py"; "-v"; "mail"] !! 1 = Some "-v"
        ∧ ["eml-extractor.py"; "-v"; "mail"] !! 2 = Some "mail"))
  ∧ (length ["eml-extractor.py"; "-v"; "mail"] = 2
     ∨ length ["eml-extractor.py"; "-v"; "mail"] = 3)
  ∧ ("mail" = "-v" → ∃ prog, ["eml-extractor.py"; "-v"; "mail"]
                              = [prog; "-v"; "-v"]).
Proof. apply X15_start_directory_and_flag. reflexivity. Defined.

(* ===================================================================== *)
(** * Runs without collisions, and the count of a second run *)
(* ===================================================================== *)

Lemma fold_save_free_names (target_dir : string) (l : list (string * bytes))
    (w : world) :
  (∀ a, a ∈ l → a.1 ≠ "") →
  NoDup ((λ a, OsPath.join target_dir a.1) <$> l) →
  (∀ a, a ∈ l → fs w !! OsPath.join target_dir a.1 = None) →
  let w' := fold_left (save_attachment target_dir) l w in
  (∀ a, a ∈ l → fs w' !! OsPath.join target_dir a.1 = Some a.2)
  ∧ size (fs w') = size (fs w) + length l
  ∧ extracted (stats w') = extracted (stats w) + length l
  ∧ (∀ path, (∀ a, a ∈ l → path ≠ OsPath.join target_dir a.1) →
             fs w' !! path = fs w !! path).
Proof.
  revert w. induction l as [|a l IH]; intros w Hne Hnd Hfree.
  { simpl. split; [by intros a ?%elem_of_nil |]. repeat split; lia. }
  rewrite fmap_cons in Hnd. apply NoDup_cons in Hnd as [Hnotin Hnd].
  assert (fs w !! OsPath.join target_dir a.1 = None) as Ha
    by (apply Hfree; left).
  assert (save_attachment target_dir w a
          = World (<[OsPath.join target_dir a.1 := a.2]> (fs w))
                  (Counters (processed (stats w)) (extracted (stats w) + 1)))
    as Hsave.
  { rewrite save_attachment_disk_step by (apply Hne; left).
    unfold disk_step.
    rewrite make_unique_filename_free; [done |].
    apply bool_decide_eq_false. rewrite Ha. by intros [? ?]. }
  assert (∀ b, b ∈ l →
            OsPath.join target_dir a.1 ≠ OsPath.join target_dir b.1) as Hdiff.
  { intros b Hb Heq. apply Hnotin. rewrite Heq.
    apply list_elem_of_fmap. by exists b. }
  cbn [fold_left]. rewrite Hsave.
  destruct (IH (World (<[OsPath.join target_dir a.1 := a.2]> (fs w))
                  (Counters (processed (stats w)) (extracted (stats w) + 1))))
    as (Hall & Hsize & Hex & Hother).
  { intros b Hb. apply Hne. by right. }
  { done. }
  { intros b Hb. simpl. rewrite lookup_insert_ne by by apply Hdiff.
    apply Hfree. by right. }
  simpl in *. rewrite map_size_insert_None in Hsize by done.
  split; [| split; [lia | split; [lia |]]].
  - intros b [-> | Hb]%elem_of_cons; [| by apply Hall].
    rewrite Hother by (intros c Hc; by apply Hdiff).
    apply lookup_insert_eq.
  - intros path Hpath. rewrite Hother.
    + rewrite lookup_insert_ne; [done |]. apply not_eq_sym, Hpath. left.
    + intros c Hc. apply Hpath. by right.
Qed.

Lemma length_rewrites (target_dir : string) (disk : filesystem)
    (l : list (string * bytes)) :
  length (rewrites target_dir disk l)
  = length (filter (λ a, existing_file_md5 disk (OsPath.join target_dir a.1)
                         ≠ Some (file_md5 a.2)) l).
Proof.
  induction l as [|[filename data] l IH]; [done |].
  unfold rewrites in *. rewrite filter_cons. simpl.
  destruct (OsPath.splitext filename) as [base extension] eqn:Hs.
  destruct (make_unique_filename_cases disk target_dir filename base
              extension data Hs)
    as [[Hfree Hm] | [[Hsame Hm] | (digest & k & Hd & Hne & _ & _ & _ & Hm)]];
    rewrite Hm; simpl; case_decide; simpl; try congruence.
  all: first [exact IH | f_equal; exact IH].
Qed.

(* ===================================================================== *)
(** * Plain names *)
(* ===================================================================== *)

Lemma plain_name_app (s1 s2 : string) :
  plain_name (s1 +:+ s2) = plain_name s1 && plain_name s2.
Proof.
  induction s1 as [|a s1 IH]; [done |].
  change (plain_name (String a (s1 +:+ s2))
          = plain_name (String a s1) && plain_name s2).
  cbn [plain_name]. rewrite IH. by rewrite andb_assoc.
Qed.

Lemma plain_name_pretty_N_go (x : N) (s : string) :
  plain_name s = true → plain_name (pretty_N_go x s) = true.
Proof.
  revert s. induction (N.lt_wf_0 x) as [x _ IH]; intros s Hs.
  assert (x = 0 ∨ 0 < x)%N as [-> | Hpos] by lia.
  - by rewrite pretty_N_go_0.
  - rewrite pretty_N_go_step by done. apply IH.
    + by apply N.div_lt.
    + cbn [plain_name]. rewrite Hs, andb_true_r.
      apply negb_true_iff, bool_decide_eq_false.
      unfold pretty_N_char. by repeat case_match.
Qed.

Lemma plain_name_pretty (counter : nat) : plain_name (pretty counter) = true.
Proof.
  unfold pretty, pretty_nat, pretty, pretty_N.
  case_decide; [done |]. by apply plain_name_pretty_N_go.
Qed.

Lemma plain_name_unique_filename (base extension : string) (counter : nat) :
  plain_name (base +:+ extension) = true →
  plain_name (unique_filename base extension counter) = true.
Proof.
  rewrite plain_name_app. intros [Hb He]%andb_true_iff.
  unfold unique_filename.
  by rewrite !plain_name_app, Hb, He, plain_name_pretty.
Qed.

Lemma plain_name_startswith (name : string) :
  plain_name name = true → Str.startswith name "/" = false.
Proof.
  destruct name as [|a name]; [done |]. cbn [plain_name Str.startswith].
  intros [H _]%andb_true_iff. by apply negb_true_iff in H.
Qed.

Lemma in_directory_empty (target_dir : string) : in_directory target_dir ∅.
Proof. intros path [content H]. by rewrite lookup_empty in H. Qed.

Lemma in_directory_insert (target_dir name : string) (data : bytes)
    (disk : filesystem) :
  plain_name name = true →
  in_directory target_dir disk →
  in_directory target_dir (<[OsPath.join target_dir name := data]> disk).
Proof.
  intros Hplain Hdir path Hpath.
  destruct (decide (OsPath.join target_dir name = path)) as [<- | Hne].
  - by exists name.
  - rewrite lookup_insert_ne in Hpath by done. by apply Hdir.
Qed.

(* ===================================================================== *)
(** * The allocation on an operating system that can refuse *)
(* ===================================================================== *)

Section os_loop.
Context (os : Os.env) (fs : filesystem).
Context (target_dir base extension new_md5 : string).

Lemma os_while_True_round (counter : nat) :
  Os.while_True os fs target_dir base extension new_md5 counter
  = match Os.leaves os fs target_dir base extension new_md5 counter with
    | Some r => r
    | None => Os.while_True os fs target_dir base extension new_md5 (S counter)
    end.
Proof.
  funelim (Os.while_True os fs target_dir base extension new_md5 counter);
    match goal with E : Os.leaves _ _ _ _ _ _ _ = _ |- _ => by rewrite E end.
Qed.


(** Where every numbered name of the family that exists can be read, the
    loop returns what the loop over the regular files gives. *)
Lemma os_while_True_regular (counter : nat) :
  (∀ k, counter ≤ k →
        os (unique_path target_dir base extension k) ≠ Os.Unreadable) →
  Os.while_True os fs target_dir base extension new_md5 counter
  = Os.Return (while_True fs target_dir base extension new_md5 counter).
Proof.
  funelim (Os.while_True os fs target_dir base extension new_md5 counter);
    intros Hreg; rewrite while_True_round.
  - match goal with E : Os.leaves _ _ _ _ _ _ _ = _ |- _ =>
      pose proof E as E'; unfold Os.leaves in E'; revert E' end.
    specialize (Hreg counter (Nat.le_refl _)).
    destruct (os _); [done | |];
      destruct (breaks _ _ _ _ _ _); intros; by simplify_eq.
  - match goal with E : Os.leaves _ _ _ _ _ _ _ = None |- _ =>
      rewrite (Os.leaves_None _ _ _ _ _ _ _ E) end.
    apply H. intros k Hk. apply Hreg. lia.
Qed.
End os_loop.

(** The loop looks at the regular files only under the numbered names of the
    family. *)
Lemma os_while_True_frame (os : Os.env) (fs1 fs2 : filesystem)
    (target_dir base extension new_md5 : string) (counter : nat) :
  (∀ k, counter ≤ k →
        fs1 !! unique_path target_dir base extension k
        = fs2 !! unique_path target_dir base extension k) →
  Os.while_True os fs1 target_dir base extension new_md5 counter
  = Os.while_True os fs2 target_dir base extension new_md5 counter.
Proof.
  funelim (Os.while_True os fs1 target_dir base extension new_md5 counter);
    intros Hsame; rewrite (os_while_True_round os fs2).
  - match goal with E : Os.leaves _ _ _ _ _ _ _ = _ |- _ =>
      pose proof E as E'; revert E' end.
    unfold Os.leaves, breaks, os_path_exists, existing_file_md5.
    rewrite (Hsame counter (Nat.le_refl _)). by intros ->.
  - match goal with E : Os.leaves _ _ _ _ _ _ _ = _ |- _ =>
      pose proof E as E'; revert E' end.
    unfold Os.leaves, breaks, os_path_exists, existing_file_md5.
    rewrite (Hsame counter (Nat.le_refl _)). intros ->.
    apply H. intros k Hk. apply Hsame. lia.
Qed.

Lemma os_make_unique_filename_frame (os : Os.env) (fs1 fs2 : filesystem)
    (target_dir filename base extension : string)
    (file_data : option bytes) :
  OsPath.splitext filename = (base, extension) →
  fs1 !! OsPath.join target_dir filename
  = fs2 !! OsPath.join target_dir filename →
  (∀ k, 1 ≤ k →
        fs1 !! unique_path target_dir base extension k
        = fs2 !! unique_path target_dir base extension k) →
  Os.make_unique_filename os fs1 target_dir filename file_data
  = Os.make_unique_filename os fs2 target_dir filename file_data.
Proof.
  intros Hs Hplain Hvar. unfold Os.make_unique_filename. rewrite Hs.
  unfold Os.os_path_exists, Os.existing_file_md5, os_path_exists,
    existing_file_md5.
  rewrite Hplain. destruct file_data as [data |]; [| done].
  cbn [Os.file_md5].
  by rewrite (os_while_True_frame os fs1 fs2 _ _ _ _ 1 Hvar).
Qed.

Lemma join_plain_name (target_dir name : string) :
  plain_name name = true →
  OsPath.join target_dir name
  = if bool_decide (target_dir = "") || Str.endswith target_dir "/"
    then target_dir +:+ name else target_dir +:+ "/" +:+ name.
Proof. intros H. unfold OsPath.join. by rewrite plain_name_startswith. Qed.

(** C10, as the code has it: for a desired name without a directory part
    the allocation is determined by the files of the target directory, the
    name and the content. Two file systems that hold the same files under
    the plain names of the target directory, and anything else elsewhere,
    get the same outcome from the same operating system: the same name, the
    same skip or the same exception. *)
Theorem C10_allocation_deterministic
    (os : Os.env) (fs1 fs2 : filesystem) (target_dir filename : string)
    (file_data : option bytes) :
  plain_name filename = true →
  (∀ name, plain_name name = true →
           fs1 !! OsPath.join target_dir name
           = fs2 !! OsPath.join target_dir name) →
  Os.make_unique_filename os fs1 target_dir filename file_data
  = Os.make_unique_filename os fs2 target_dir filename file_data
  ∧ ∀ data, make_unique_filename fs1 target_dir filename data
            = make_unique_filename fs2 target_dir filename data.
Proof.
  intros Hplain Hsame.
  destruct (OsPath.splitext filename) as [base extension] eqn:Hs.
  assert (∀ k, fs1 !! unique_path target_dir base extension k
               = fs2 !! unique_path target_dir base extension k) as Hvar.
  { intros k. apply Hsame, plain_name_unique_filename.
    by rewrite (splitext_app _ _ _ Hs). }
  split.
  - apply (os_make_unique_filename_frame _ _ _ _ _ _ _ _ Hs); auto.
  - intros data. apply (make_unique_filename_frame _ _ _ _ _ _ _ Hs);
      unfold existing_file_md5; intros; by rewrite ?Hsame, ?Hvar.
Qed.

Lemma C10_witness :
  Os.make_unique_filename (Os.flat "extracted")
    (<["extracted/report.pdf" := [x58]]>
       {["extracted/report_1.pdf" := [x59]]})
    "extracted" "report.pdf" (Some [x5a])
  = Os.make_unique_filename (Os.flat "extracted")
      (<["inbox/report_2.pdf" := [x5a]]>
         (<["extracted/report_1.pdf" := [x59]]>
            {["extracted/report.pdf" := [x58]]}))
      "extracted" "report.pdf" (Some [x5a]).
Proof.
  refine (proj1 (C10_allocation_deterministic (Os.flat "extracted") _ _
            "extracted" "report.pdf" (Some [x5a]) eq_refl _)).
  intros name Hname. rewrite (join_plain_name _ _ Hname).
  change (bool_decide ("extracted" = "") || Str.endswith "extracted" "/")
    with false. cbv iota.
  cbv [String.append].
  rewrite (lookup_insert_ne (<[_ := _]> _)) by done.
  destruct (decide (name = "report.pdf")) as [-> | Hne];
    [done |].
  destruct (decide (name = "report_1.pdf")) as [-> | Hne1];
    [done |].
  rewrite !lookup_insert_ne, !lookup_singleton_ne; try done;
    intros H; by simplify_eq.
Defined.

(** C10 as stated fails for a desired name with a directory part: an
    absolute name makes [os.path.join] drop the target directory, so the
    allocation looks at a path outside of it. Two file systems with the same
    files in [extracted] then get different answers for the same name and
    the same bytes. *)
Lemma C10_absolute_name_looks_outside :
  let fs1 : filesystem := {["extracted/a.txt" := [x58]]} in
  let fs2 : filesystem :=
    <["/srv/report.pdf" := [x59]]> {["extracted/a.txt" := [x58]]} in
  (∀ name, fs1 !! ("extracted/" +:+ name) = fs2 !! ("extracted/" +:+ name))
  ∧ make_unique_filename fs1 "extracted" "/srv/report.pdf" [x5a]
    = Some "/srv/report.pdf"
  ∧ make_unique_filename fs2 "extracted" "/srv/report.pdf" [x5a]
    = Some "/srv/report_1.pdf"
  ∧ Os.make_unique_filename (Os.flat "extracted") fs1 "extracted"
      "/srv/report.pdf" (Some [x5a])
    = Os.Return (Some "/srv/report.pdf")
  ∧ Os.make_unique_filename (Os.flat "extracted") fs2 "extracted"
      "/srv/report.pdf" (Some [x5a])
    = Os.Return (Some "/srv/report_1.pdf").
Proof.
  split; [| repeat split; compute_done].
  intros name. by rewrite lookup_insert_ne.
Qed.

(* ===================================================================== *)
(** * The two runs compared *)
(* ===================================================================== *)


(** Where the desired name and the numbered names of its family can be read
    if they exist, the allocation raises nothing. *)
Lemma os_make_unique_filename_regular (os : Os.env) (fs : filesystem)
    (target_dir filename base extension : string) (data : bytes) :
  OsPath.splitext filename = (base, extension) →
  (∀ n, os (slot target_dir filename base extension n) ≠ Os.Unreadable) →
  Os.make_unique_filename os fs target_dir filename (Some data)
  = Os.Return (make_unique_filename fs target_dir filename data).
Proof.
  intros Hs Hreg. unfold Os.make_unique_filename, make_unique_filename.
  rewrite Hs. unfold Os.os_path_exists, Os.existing_file_md5.
  cbn [Os.file_md5]. pose proof (Hreg 0) as Hplain. cbn [slot] in Hplain.
  rewrite (os_while_True_regular os fs).
  2:{ intros k Hk. specialize (Hreg k). by destruct k; [lia |]. }
  destruct (os_path_exists fs (OsPath.join target_dir filename)) eqn:Hex.
  - destruct (existing_file_md5_is_Some _ _ Hex) as (content & _ & Hmd5).
    rewrite Hmd5.
    destruct (os (OsPath.join target_dir filename)); [by destruct Hplain | |];
      (destruct (decide (file_md5 content = file_md5 data)) as [Heq | Hne];
       [ rewrite !bool_decide_eq_true_2 by congruence; reflexivity
       | rewrite !bool_decide_eq_false_2 by congruence; reflexivity ]).
  - destruct (os (OsPath.join target_dir filename));
      [by destruct Hplain | reflexivity | reflexivity].
Qed.

(** A free desired name is answered without a digest: also for a payload
    that has none. *)
Lemma os_make_unique_filename_free (os : Os.env) (fs : filesystem)
    (target_dir filename : string) (file_data : option bytes) :
  Os.os_path_exists os fs (OsPath.join target_dir filename) = false →
  Os.make_unique_filename os fs target_dir filename file_data
  = Os.Return (Some filename).
Proof.
  intros H. unfold Os.make_unique_filename.
  destruct (OsPath.splitext filename). by rewrite H.
Qed.


Lemma os_for_part_unsaved (os : Os.env) (target_dir : string) (w : world)
    (p : part) :
  saved_part p = None →
  Os.for_part os target_dir w (Os.of_part p) = (for_part target_dir w p, Returned).
Proof.
  intros Hp. rewrite for_part_saved_part, Hp.
  unfold saved_part in Hp. unfold Os.for_part, Os.of_part.
  destruct (bool_decide (get_content_disposition p = Some "attachment"));
    [| done].
  destruct (get_filename p) as [filename |]; [| done].
  by destruct (truthy filename).
Qed.

Lemma os_for_part_accepts (os : Os.env) (target_dir : string) (w : world)
    (p : part) (a : string * bytes) :
  saved_part p = Some a →
  accepts os target_dir (fs w) a →
  Os.for_part os target_dir w (Os.of_part p)
  = (for_part target_dir w p, Returned).
Proof.
  intros Hp [Hreg Hacc]. unfold Os.for_part, Os.of_part, for_part, to_save.
  unfold saved_part in Hp.
  destruct (bool_decide (get_content_disposition p = Some "attachment"));
    [| done].
  destruct (get_filename p) as [filename |]; [| done].
  destruct (truthy filename); [| done]. injection Hp as <-.
  cbn [fst snd] in Hreg, Hacc. rewrite Hreg.
  destruct (make_unique_filename (fs w) target_dir filename (get_payload p))
    as [unique_filename |] eqn:Hm; [| done].
  destruct (truthy unique_filename); [| done].
  by rewrite (Hacc unique_filename eq_refl).
Qed.

Lemma fs_for_part (target_dir : string) (w : world) (p : part)
    (a : string * bytes) :
  saved_part p = Some a →
  fs (for_part target_dir w p) = disk_step target_dir (fs w) a.
Proof.
  intros Hp. rewrite for_part_saved_part, Hp.
  destruct a as [filename data].
  rewrite save_attachment_disk_step; [done |].
  by apply saved_part_truthy in Hp.
Qed.

Lemma os_walk_parts_accepts (os : Os.env) (target_dir : string)
    (walk : list part) (w : world) :
  accepts_all os target_dir (omap saved_part walk) (fs w) →
  Os.walk_parts os target_dir (Os.of_part <$> walk) w
  = (fold_left (for_part target_dir) walk w, Returned).
Proof.
  revert w. induction walk as [|p walk IH]; intros w Hacc; [done |].
  rewrite fmap_cons. cbn [Os.walk_parts fold_left]. simpl in Hacc.
  destruct (saved_part p) as [a |] eqn:Hp.
  - destruct Hacc as [Ha Hacc].
    rewrite (os_for_part_accepts _ _ _ _ _ Hp Ha). apply IH.
    by rewrite (fs_for_part _ _ _ _ Hp).
  - rewrite (os_for_part_unsaved _ _ _ _ Hp). apply IH.
    by rewrite for_part_saved_part, Hp.
Qed.

Lemma accepts_all_app (os : Os.env) (target_dir : string)
    (l1 l2 : list (string * bytes)) (disk : filesystem) :
  accepts_all os target_dir (l1 ++ l2) disk
  ↔ accepts_all os target_dir l1 disk
    ∧ accepts_all os target_dir l2 (fold_left (disk_step target_dir) l1 disk).
Proof.
  revert disk. induction l1 as [|a l1 IH]; intros disk; simpl.
  - tauto.
  - rewrite IH. tauto.
Qed.

Lemma fs_extract_attachments_from_file (target_dir : string)
    (file : message_file) (w : world) :
  fs (extract_attachments_from_file file target_dir w).1
  = fold_left (disk_step target_dir) (attachments_of file) (fs w).
Proof.
  destruct file as [|walk]; [done |]. simpl.
  rewrite fold_for_part_saved. apply fs_fold_save_attachment.
  intros [filename data] (p & _ & Hp)%list_elem_of_omap.
  by apply saved_part_truthy in Hp.
Qed.

(** Where the operating system lets every attachment through, the run is
    the run in which no call is refused: only the files that do not parse
    end with an exception. *)
Lemma os_run_sequential_accepts (os : Os.env) (target_dir : string)
    (eml_files : list message_file) (w : world) :
  accepts_all os target_dir (concat (attachments_of <$> eml_files)) (fs w) →
  Os.run_sequential os target_dir (Os.of_file <$> eml_files) w
  = (Pool.run_sequential target_dir eml_files w, outcome_of <$> eml_files).
Proof.
  revert w. induction eml_files as [|file eml_files IH]; intros w Hacc;
    [done |].
  rewrite !fmap_cons in *. cbn [concat] in Hacc.
  apply accepts_all_app in Hacc as [Hfile Hrest].
  rewrite <- fs_extract_attachments_from_file in Hrest.
  cbn [Os.run_sequential].
  assert (Os.extract_attachments_from_file os (Os.of_file file) target_dir w
          = extract_attachments_from_file file target_dir w) as ->.
  { destruct file as [|walk]; [done |]. simpl.
    by rewrite (os_walk_parts_accepts _ _ _ _ Hfile). }
  destruct (extract_attachments_from_file file target_dir w) as [w1 r] eqn:He.
  rewrite (IH w1 Hrest).
  change (Pool.run_sequential target_dir (file :: eml_files) w)
    with (Pool.run_sequential target_dir eml_files
            (extract_attachments_from_file file target_dir w).1).
  rewrite He. do 2 f_equal. by destruct file; simplify_eq/=.
Qed.

(* ===================================================================== *)
(** * The flat target directory *)
(* ===================================================================== *)

Lemma prefix_app (s1 s2 : string) : String.prefix s1 (s1 +:+ s2) = true.
Proof.
  induction s1 as [|a s1 IH]; [by destruct s2 |].
  change (String.prefix (String a s1) (String a (s1 +:+ s2)) = true).
  cbn [String.prefix]. by destruct (ascii_dec a a).
Qed.

(** The paths of plain names under a target directory whose own name is not
    empty and does not end with the separator. *)
Lemma join_plain (target_dir name : string) :
  target_dir ≠ "" → Str.endswith target_dir "/" = false →
  plain_name name = true →
  OsPath.join target_dir name = (target_dir +:+ "/") +:+ name.
Proof.
  intros Hne Hsep Hplain. rewrite (join_plain_name _ _ Hplain), Hsep.
  rewrite bool_decide_eq_false_2 by done. cbn [orb].
  by rewrite append_assoc.
Qed.

Lemma entry_join (target_dir name : string) :
  target_dir ≠ "" → Str.endswith target_dir "/" = false →
  plain_name name = true →
  Os.entry target_dir (OsPath.join target_dir name) = Some name.
Proof.
  intros Hne Hsep Hplain. rewrite (join_plain _ _ Hne Hsep Hplain).
  unfold Os.entry. rewrite prefix_app. f_equal.
  replace (String.length target_dir + 1)
    with (String.length (target_dir +:+ "/"))
    by (by rewrite Str.length_app).
  apply str_drop_app.
Qed.

Lemma flat_join (target_dir name : string) :
  target_dir ≠ "" → Str.endswith target_dir "/" = false →
  plain_name name = true →
  name ∉ [""; "."; ".."] →
  Os.flat target_dir (OsPath.join target_dir name)
  = if bool_decide (String.length name ≤ 255)
    then Os.Accepted else Os.Refused.
Proof.
  intros Hne Hsep Hplain Hdots. unfold Os.flat.
  rewrite (entry_join _ _ Hne Hsep Hplain).
  by rewrite bool_decide_eq_false_2, Hplain.
Qed.

Lemma unique_filename_no_dots (base extension : string) (counter : nat) :
  unique_filename base extension counter ∉ [""; "."; ".."].
Proof.
  unfold unique_filename. intros H.
  repeat (apply elem_of_cons in H as [H | H]); [| | | by apply elem_of_nil in H].
  all: by destruct base as [|a [|b [|c base]]].
Qed.

(** In a flat directory no name of the family of a plain file name, other
    than a dot name, is a directory. *)
Lemma flat_family (target_dir filename base extension : string) (n : nat) :
  target_dir ≠ "" → Str.endswith target_dir "/" = false →
  OsPath.splitext filename = (base, extension) →
  plain_name filename = true →
  filename ∉ [""; "."; ".."] →
  Os.flat target_dir (slot target_dir filename base extension n)
  ≠ Os.Unreadable.
Proof.
  intros Hne Hsep Hs Hplain Hdots. destruct n as [|n]; cbn [slot].
  - rewrite flat_join by done. by case_bool_decide.
  - unfold unique_path. rewrite flat_join; [by case_bool_decide | done.. | |].
    + apply plain_name_unique_filename. by rewrite (splitext_app _ _ _ Hs).
    + apply unique_filename_no_dots.
Qed.

(* ===================================================================== *)
(** * One name, many contents *)
(* ===================================================================== *)

Section same_name_os.
Context (os : Os.env) (target_dir filename base extension : string).
Context (Hsplit : OsPath.splitext filename = (base, extension)).

(** With the first [n] contents in place, the allocation for the next one
    answers the next name of the family. *)
Lemma next_slot_answered (contents : list bytes) (disk : filesystem)
    (n : nat) (data : bytes) :
  filename ≠ "" →
  NoDup (file_md5 <$> contents) →
  contents !! n = Some data →
  placed target_dir filename base extension contents n disk →
  disk_step target_dir disk (filename, data)
  = <[slot target_dir filename base extension n := data]> disk
  ∧ ∀ name, make_unique_filename disk target_dir filename data = Some name →
            OsPath.join target_dir name
            = slot target_dir filename base extension n.
Proof.
  intros Hne Hnd Hn Hp.
  pose proof (save_attachment_next_slot target_dir filename base extension
                Hsplit contents (World disk (Counters 0 0)) n data
                Hne Hnd Hn Hp) as Hsave.
  rewrite save_attachment_disk_step in Hsave by done.
  injection Hsave as Hstep _. cbn [fs fst snd] in Hstep.
  split; [exact Hstep |]. intros name Hm.
  unfold disk_step in Hstep. cbn [fst snd] in Hstep. rewrite Hm in Hstep.
  destruct (decide (OsPath.join target_dir name
                    = slot target_dir filename base extension n))
    as [| Hdiff]; [done |].
  apply (f_equal (λ m : filesystem,
           m !! slot target_dir filename base extension n)) in Hstep.
  rewrite lookup_insert_eq, lookup_insert_ne in Hstep by done.
  destruct Hp as [_ Hfree]. rewrite Hfree in Hstep by lia. done.
Qed.

Lemma same_name_accepts (contents saved todo : list bytes)
    (disk : filesystem) :
  filename ≠ "" →
  NoDup (file_md5 <$> contents) →
  (∀ n, os (slot target_dir filename base extension n) ≠ Os.Unreadable) →
  (∀ n, n < length contents →
        os (slot target_dir filename base extension n) = Os.Accepted) →
  contents = saved ++ todo →
  placed target_dir filename base extension contents (length saved) disk →
  accepts_all os target_dir ((λ data, (filename, data)) <$> todo) disk.
Proof.
  intros Hne Hnd Hreg Hacc. revert saved disk.
  induction todo as [|data todo IH]; intros saved disk Hc Hp; [done |].
  assert (contents !! length saved = Some data) as Hn.
  { subst contents. by apply list_lookup_middle. }
  destruct (next_slot_answered contents disk (length saved) data
              Hne Hnd Hn Hp) as [Hstep Hname].
  rewrite fmap_cons. cbn [accepts_all]. split.
  - split; cbn [fst snd].
    + by apply (os_make_unique_filename_regular os disk target_dir filename
                  base extension).
    + intros name Hm. rewrite (Hname name Hm). apply Hacc.
      by apply lookup_lt_Some in Hn.
  - rewrite Hstep. apply (IH (saved ++ [data])).
    + by rewrite <- app_assoc.
    + rewrite length_app. simpl. rewrite Nat.add_1_r.
      by apply placed_next.
Qed.
End same_name_os.

(** C2, as the code has it: the message files are processed one after the
    other (no worker runs between another worker's allocation and its write);
    no getter raises and every payload is [bytes]; the attachments of the
    run all have the same desired name, a name without a directory part;
    their digests are pairwise distinct; the target directory holds no file
    under a name of the family beforehand, and no directory; and the
    operating system opens for writing the first names of the family, as
    many as there are contents. Then the run leaves exactly one new file
    per content, the [n]-th content under the [n]-th name of the family,
    nothing overwritten, and it returns that many extracted files. *)
Theorem C2_sequential_run_keeps_every_content
    (os : Os.env) (target_dir filename base extension : string)
    (eml_files : list message_file) (contents : list bytes)
    (fs0 : filesystem) :
  OsPath.splitext filename = (base, extension) →
  plain_name filename = true →
  in_directory target_dir fs0 →
  concat (attachments_of <$> eml_files)
  = (λ data, (filename, data)) <$> contents →
  NoDup (file_md5 <$> contents) →
  (∀ n, fs0 !! slot target_dir filename base extension n = None) →
  (∀ n, os (slot target_dir filename base extension n) ≠ Os.Unreadable) →
  (∀ n, n < length contents →
        os (slot target_dir filename base extension n) = Os.Accepted) →
  let result :=
    Os.extract_and_save_attachments_sequential os (Os.of_file <$> eml_files)
      target_dir fs0 in
  size result.1 = size fs0 + length contents
  ∧ (∀ n data, contents !! n = Some data →
               result.1 !! slot target_dir filename base extension n
               = Some data)
  ∧ fs0 ⊆ result.1
  ∧ result.2.2 = length contents.
Proof.
  intros Hsplit _ _ Hflat Hnd Hfree Hreg Hacc result.
  assert (result
          = Pool.extract_and_save_attachments_sequential eml_files
              target_dir fs0) as ->.
  { unfold result, Os.extract_and_save_attachments_sequential,
      Pool.extract_and_save_attachments_sequential.
    rewrite os_run_sequential_accepts; [done |]. rewrite Hflat. cbn [fs].
    destruct contents as [|data0 contents'] eqn:Hc; [done |].
    rewrite <- Hc in *.
    apply (same_name_accepts os target_dir filename base extension Hsplit
             contents []); try done.
    - apply (attachment_names_truthy eml_files filename data0).
      rewrite Hflat, Hc. simpl. apply list_elem_of_here.
    - split; [simpl; intros; lia | intros; apply Hfree]. }
  destruct (run_sequential_attachments target_dir eml_files
                   (World fs0 (Counters 0 0))) as [Hfs Hex].
  unfold Pool.extract_and_save_attachments_sequential. simpl.
  rewrite Hfs, Hex, Hflat. clear Hfs Hex.
  destruct contents as [|data0 contents'] eqn:Hc.
  { simpl. split; [lia | split; [by intros n data ? | done]]. }
  rewrite <- Hc in *.
  assert (filename ≠ "") as Hne.
  { apply (attachment_names_truthy eml_files filename data0).
    rewrite Hflat, Hc. simpl. apply list_elem_of_here. }
  destruct (same_name_fills_slots target_dir filename base extension Hsplit
              contents [] contents (World fs0 (Counters 0 0)) Hne Hnd)
    as ([Hplaced _] & Hsize & Hextracted & Hsub); [done | |].
  { split; [simpl; intros; lia | intros; apply Hfree]. }
  simpl in *. repeat split; [done | | done | done].
  intros n data Hn. apply Hplaced; [| done]. by apply lookup_lt_Some in Hn.
Qed.

Lemma C2_witness :
  let result :=
    Os.extract_and_save_attachments_sequential (Os.flat "extracted")
      (Os.of_file <$> [a_eml; Unparsable; b_eml]) "extracted" ∅ in
  size result.1 = 0 + 2
  ∧ result.1 !! "extracted/report.pdf" = Some [x58]
  ∧ result.1 !! "extracted/report_1.pdf" = Some [x59].
Proof.
  intros result.
  destruct (C2_sequential_run_keeps_every_content (Os.flat "extracted")
              "extracted" "report.pdf" "report" ".pdf"
              [a_eml; Unparsable; b_eml] [[x58]; [x59]] ∅)
    as (Hsize & Hslots & _).
  - reflexivity.
  - reflexivity.
  - apply in_directory_empty.
  - reflexivity.
  - apply (bool_decide_unpack _). vm_compute. exact I.
  - done.
  - intros n. apply flat_family; try done.
    intros H. repeat (apply elem_of_cons in H as [H | H]); try done.
    by apply elem_of_nil in H.
  - intros [|[|n]] Hn; [reflexivity | reflexivity | simpl in Hn; lia].
  - split; [exact Hsize |].
    split; [exact (Hslots 0 [x58] eq_refl) | exact (Hslots 1 [x59] eq_refl)].
Defined.

(* ===================================================================== *)
(** * The lowest free number *)
(* ===================================================================== *)

(** When the plain name is taken by other content and no numbered name holds
    the new digest, the allocation answers the first numbered name that is
    free. *)
Lemma lowest_free_suffix_answered
    (disk : filesystem) (target_dir filename base extension : string)
    (file_data : bytes) :
  OsPath.splitext filename = (base, extension) →
  os_path_exists disk (OsPath.join target_dir filename) = true →
  existing_file_md5 disk (OsPath.join target_dir filename)
  ≠ Some (file_md5 file_data) →
  (∀ k, 1 ≤ k →
        existing_file_md5 disk (unique_path target_dir base extension k)
        ≠ Some (file_md5 file_data)) →
  ∃ n,
    1 ≤ n
    ∧ os_path_exists disk (unique_path target_dir base extension n) = false
    ∧ (∀ k, 1 ≤ k < n →
            os_path_exists disk (unique_path target_dir base extension k)
            = true)
    ∧ make_unique_filename disk target_dir filename file_data
      = Some (unique_filename base extension n).
Proof.
  intros Hs Hex Hplain Hvar.
  destruct (while_True_exit disk target_dir base extension
              (file_md5 file_data) 1) as (n & Hn & Hb & Hlow & Hres).
  assert (∀ k, 1 ≤ k →
    breaks disk target_dir base extension (file_md5 file_data) k
    = negb (os_path_exists disk (unique_path target_dir base extension k)))
    as Hbreaks.
  { intros k Hk. unfold breaks.
    rewrite (bool_decide_eq_false_2 _ (Hvar k Hk)). apply orb_false_r. }
  exists n. split; [lia |]. split; [| split].
  - rewrite Hbreaks in Hb by lia. by apply negb_true_iff in Hb.
  - intros k Hk. specialize (Hlow k Hk). rewrite Hbreaks in Hlow by lia.
    by apply negb_false_iff in Hlow.
  - rewrite (make_unique_filename_numbered _ _ _ _ _ _ Hs Hex Hplain).
    by rewrite Hres.
Qed.

Lemma os_path_exists_regular (os : Os.env) (disk : filesystem)
    (path : string) :
  os path ≠ Os.Unreadable →
  Os.os_path_exists os disk path = os_path_exists disk path.
Proof. unfold Os.os_path_exists. by destruct (os path). Qed.

(** C5, as the code has it: the desired name has no directory part and is
    taken by a file with another digest, no numbered variant on disk holds
    the new digest, and no name of the family is a directory or a file that
    cannot be read. Then the
    allocation answers [<base>_<n><ext>] for the smallest [n >= 1] whose name
    does not exist. Where the operating system opens that name for writing,
    saving the attachment creates exactly that one file and counts it;
    where it does not, the call ends with the exception of [open] and
    nothing is created or counted. *)
Theorem C5_lowest_free_suffix
    (os : Os.env) (w : world) (target_dir filename base extension : string)
    (file_data : bytes) :
  OsPath.splitext filename = (base, extension) →
  filename ≠ "" →
  plain_name filename = true →
  in_directory target_dir (fs w) →
  (∀ n, os (slot target_dir filename base extension n) ≠ Os.Unreadable) →
  os_path_exists (fs w) (OsPath.join target_dir (base +:+ extension)) = true →
  existing_file_md5 (fs w) (OsPath.join target_dir (base +:+ extension))
  ≠ Some (file_md5 file_data) →
  (∀ k, 1 ≤ k →
        existing_file_md5 (fs w) (unique_path target_dir base extension k)
        ≠ Some (file_md5 file_data)) →
  ∃ n,
    1 ≤ n
    ∧ Os.os_path_exists os (fs w) (unique_path target_dir base extension n)
      = false
    ∧ (∀ k, 1 ≤ k < n →
            Os.os_path_exists os (fs w)
              (unique_path target_dir base extension k) = true)
    ∧ Os.make_unique_filename os (fs w) target_dir filename (Some file_data)
      = Os.Return (Some (unique_filename base extension n))
    ∧ (os (unique_path target_dir base extension n) = Os.Accepted →
       Os.for_part os target_dir w (Os.of_part (attachment filename file_data))
       = (World (<[unique_path target_dir base extension n := file_data]>
                   (fs w))
                (Counters (processed (stats w)) (extracted (stats w) + 1)),
          Returned)
       ∧ size (<[unique_path target_dir base extension n := file_data]> (fs w))
         = S (size (fs w)))
    ∧ (os (unique_path target_dir base extension n) = Os.Refused →
       Os.for_part os target_dir w (Os.of_part (attachment filename file_data))
       = (w, Raised)).
Proof.
  intros Hs Hne _ _ Hreg Hex Hplain Hvar.
  pose proof (splitext_app _ _ _ Hs) as Happ. rewrite Happ in Hex, Hplain.
  destruct (lowest_free_suffix_answered (fs w) target_dir filename base
              extension file_data Hs Hex Hplain Hvar)
    as (n & Hn & Hfree & Hlow & Hmuf).
  assert (∀ k, 1 ≤ k →
            os (unique_path target_dir base extension k) ≠ Os.Unreadable)
    as Hreg'.
  { intros k Hk. specialize (Hreg k). by destruct k; [lia |]. }
  assert (Os.make_unique_filename os (fs w) target_dir filename
            (Some file_data)
          = Os.Return (Some (unique_filename base extension n))) as Hos.
  { by rewrite (os_make_unique_filename_regular os (fs w) target_dir
                  filename base extension file_data Hs Hreg), Hmuf. }
  assert (∀ kind,
    os (unique_path target_dir base extension n) = kind →
    Os.for_part os target_dir w (Os.of_part (attachment filename file_data))
    = match kind with
      | Os.Accepted =>
          (World (<[unique_path target_dir base extension n := file_data]>
                    (fs w))
                 (Counters (processed (stats w)) (extracted (stats w) + 1)),
           Returned)
      | _ => (w, Raised)
      end) as Hpart.
  { intros kind Hkind. unfold Os.for_part, Os.of_part, attachment.
    cbn [get_content_disposition get_filename get_payload].
    rewrite bool_decide_eq_true_2, (truthy_ne _ Hne), Hos by done.
    rewrite truthy_unique_filename.
    change (OsPath.join target_dir (unique_filename base extension n))
      with (unique_path target_dir base extension n).
    rewrite Hkind. by destruct kind. }
  exists n. split; [lia |]. split; [| split; [| split; [| split]]].
  - rewrite os_path_exists_regular by (apply Hreg'; lia). done.
  - intros k Hk. rewrite os_path_exists_regular by (apply Hreg'; lia).
    by apply Hlow.
  - exact Hos.
  - intros Hkind. split; [exact (Hpart _ Hkind) |].
    apply map_size_insert_None.
    unfold os_path_exists in Hfree. apply bool_decide_eq_false in Hfree.
    by apply eq_None_not_Some.
  - intros Hkind. exact (Hpart _ Hkind).
Qed.

Lemma C5_witness :
  let w := World (<["extracted/report_1.pdf" := [x59]]>
                    {["extracted/report.pdf" := [x58]]}) (Counters 0 0) in
  ∃ n, 1 ≤ n
    ∧ Os.make_unique_filename (Os.flat "extracted") (fs w) "extracted"
        "report.pdf" (Some [x5a])
      = Os.Return (Some (unique_filename "report" ".pdf" n)).
Proof.
  intros w.
  destruct (C5_lowest_free_suffix (Os.flat "extracted") w "extracted"
              "report.pdf" "report" ".pdf" [x5a] eq_refl)
    as (n & Hn & _ & _ & Hmuf & _).
  - done.
  - reflexivity.
  - apply (in_directory_insert "extracted" "report_1.pdf"); [done |].
    apply (in_directory_insert "extracted" "report.pdf" _ ∅); [done |].
    apply in_directory_empty.
  - intros n. apply flat_family; try done.
    intros H. repeat (apply elem_of_cons in H as [H | H]); try done.
    by apply elem_of_nil in H.
  - reflexivity.
  - vm_compute. done.
  - intros k Hk. destruct (decide (k = 1)) as [-> | Hne].
    + vm_compute. done.
    + rewrite existing_file_md5_None; [done |].
      apply bool_decide_eq_false. rewrite <- eq_None_not_Some. simpl.
      rewrite lookup_insert_ne, lookup_singleton_ne; [done | |].
      * apply not_eq_sym.
        exact (unique_path_ne_plain "extracted" "report" ".pdf" k).
      * intros H. apply Hne. symmetry.
        exact (unique_path_inj "extracted" "report" ".pdf" 1 k H).
  - exists n. split; [done | exact Hmuf].
Defined.

(** The plain name of 255 bytes is taken by other content: the allocation
    answers the numbered name, which does not exist and is two bytes too
    long; [open] raises, no file is created and nothing is counted. *)
Lemma C5_long_name_is_not_written :
  let os := Os.flat "extracted" in
  let w := World {[OsPath.join "extracted" long_name := [x58]]}
                 (Counters 0 0) in
  let base := string_of_list_ascii (repeat "a"%char 251) in
  OsPath.splitext long_name = (base, ".pdf")
  ∧ os_path_exists (fs w) (OsPath.join "extracted" long_name) = true
  ∧ existing_file_md5 (fs w) (OsPath.join "extracted" long_name)
    ≠ Some (file_md5 [x59])
  ∧ Os.make_unique_filename os (fs w) "extracted" long_name (Some [x59])
    = Os.Return (Some (unique_filename base ".pdf" 1))
  ∧ Os.os_path_exists os (fs w) (unique_path "extracted" base ".pdf" 1)
    = false
  ∧ Os.for_part os "extracted" w (Os.of_part (attachment long_name [x59]))
    = (w, Raised).
Proof. repeat split; compute_done. Qed.

(* ===================================================================== *)
(** * Free names *)
(* ===================================================================== *)

Lemma join_plain_inj (target_dir name other : string) :
  plain_name name = true → plain_name other = true →
  OsPath.join target_dir name = OsPath.join target_dir other → name = other.
Proof.
  intros Hn Ho. apply join_inj_same_head.
  by rewrite !plain_name_startswith.
Qed.

(** An attachment with a free name and a payload of bytes: the name and the
    operating system decide how the part ends. *)
Lemma os_for_part_free (os : Os.env) (target_dir filename : string)
    (file_data : bytes) (w : world) :
  filename ≠ "" →
  Os.os_path_exists os (fs w) (OsPath.join target_dir filename) = false →
  Os.for_part os target_dir w (Os.of_part (attachment filename file_data))
  = match os (OsPath.join target_dir filename) with
    | Os.Accepted =>
        (World (<[OsPath.join target_dir filename := file_data]> (fs w))
               (Counters (processed (stats w)) (extracted (stats w) + 1)),
         Returned)
    | _ => (w, Raised)
    end.
Proof.
  intros Hne Hfree. unfold Os.for_part, Os.of_part, attachment.
  cbn [get_content_disposition get_filename get_payload].
  rewrite bool_decide_eq_true_2, (truthy_ne _ Hne) by done.
  rewrite (os_make_unique_filename_free _ _ _ _ _ Hfree), (truthy_ne _ Hne).
  by destruct (os _).
Qed.




Lemma free_names_accepts (os : Os.env) (target_dir : string)
    (l : list (string * bytes)) (disk : filesystem) :
  NoDup ((λ a, OsPath.join target_dir a.1) <$> l) →
  (∀ a, a ∈ l → disk !! OsPath.join target_dir a.1 = None) →
  (∀ a, a ∈ l → os (OsPath.join target_dir a.1) = Os.Accepted) →
  accepts_all os target_dir l disk.
Proof.
  revert disk. induction l as [|a l IH]; intros disk Hnd Hfree Hacc; [done |].
  rewrite fmap_cons in Hnd. apply NoDup_cons in Hnd as [Hnotin Hnd].
  assert (os_path_exists disk (OsPath.join target_dir a.1) = false) as Hex.
  { apply bool_decide_eq_false. rewrite Hfree by left. by intros [? ?]. }
  pose proof (make_unique_filename_free disk target_dir a.1 a.2 Hex) as Hm.
  cbn [accepts_all]. split; [split |].
  - rewrite Hm. apply os_make_unique_filename_free.
    unfold Os.os_path_exists. by rewrite (Hacc a) by left.
  - rewrite Hm. intros name [= <-]. apply Hacc. left.
  - unfold disk_step. rewrite Hm. apply IH; [done | |].
    + intros b Hb. rewrite lookup_insert_ne; [apply Hfree; by right |].
      intros Heq. apply Hnotin. rewrite Heq.
      apply list_elem_of_fmap. by exists b.
    + intros b Hb. apply Hacc. by right.
Qed.

(** X16: the attachments of a run have pairwise different file names
    without a directory part, no getter raises and every payload is
    [bytes], none of the names exists beforehand in the target directory and
    the operating system opens each of them for writing. Then a run that
    takes the files one after the other saves every attachment under its own
    file name, counts each of them, and touches no other path. *)
Theorem X16_free_names_are_kept
    (os : Os.env) (target_dir : string) (eml_files : list message_file)
    (fs0 : filesystem) :
  in_directory target_dir fs0 →
  (∀ a, a ∈ concat (attachments_of <$> eml_files) →
        plain_name a.1 = true) →
  NoDup (fst <$> concat (attachments_of <$> eml_files)) →
  (∀ a, a ∈ concat (attachments_of <$> eml_files) →
        fs0 !! OsPath.join target_dir a.1 = None) →
  (∀ a, a ∈ concat (attachments_of <$> eml_files) →
        os (OsPath.join target_dir a.1) = Os.Accepted) →
  let result :=
    Os.extract_and_save_attachments_sequential os (Os.of_file <$> eml_files)
      target_dir fs0 in
  (∀ a, a ∈ concat (attachments_of <$> eml_files) →
        result.1 !! OsPath.join target_dir a.1 = Some a.2)
  ∧ size result.1
    = size fs0 + length (concat (attachments_of <$> eml_files))
  ∧ result.2.2 = length (concat (attachments_of <$> eml_files))
  ∧ (∀ path,
       (∀ a, a ∈ concat (attachments_of <$> eml_files) →
             path ≠ OsPath.join target_dir a.1) →
       result.1 !! path = fs0 !! path).
Proof.
  intros _ Hplain Hnames Hfree Hacc result.
  assert (NoDup ((λ a, OsPath.join target_dir a.1)
                   <$> concat (attachments_of <$> eml_files))) as Hnd.
  { change (NoDup ((OsPath.join target_dir ∘ fst)
                     <$> concat (attachments_of <$> eml_files))).
    rewrite list_fmap_compose.
    apply NoDup_fmap_2_strong; [| done].
    intros x y (a & -> & Ha)%list_elem_of_fmap (b & -> & Hb)%list_elem_of_fmap.
    apply join_plain_inj; by apply Hplain. }
  assert (result
          = Pool.extract_and_save_attachments_sequential eml_files
              target_dir fs0) as ->.
  { unfold result, Os.extract_and_save_attachments_sequential,
      Pool.extract_and_save_attachments_sequential.
    rewrite os_run_sequential_accepts; [done |].
    by apply free_names_accepts. }
  destruct (run_sequential_attachments target_dir eml_files
              (World fs0 (Counters 0 0))) as [Hfs Hex].
  unfold Pool.extract_and_save_attachments_sequential. simpl.
  rewrite Hfs, Hex.
  apply (fold_save_free_names target_dir _ (World fs0 (Counters 0 0)));
    [| done | done].
  intros [filename data] Hin. by apply attachment_names_truthy in Hin.
Qed.

Lemma X16_witness :
  let result :=
    Os.extract_and_save_attachments_sequential (Os.flat "extracted")
      (Os.of_file
         <$> [Message [attachment "a.txt" [x58]; attachment "b.txt" [x58]];
              a_eml])
      "extracted" ∅ in
  size result.1 = 0 + 3 ∧ result.2.2 = 3.
Proof.
  intros result.
  destruct (X16_free_names_are_kept (Os.flat "extracted") "extracted"
              [Message [attachment "a.txt" [x58]; attachment "b.txt" [x58]];
               a_eml] ∅) as (_ & Hsize & Hcount & _).
  - apply in_directory_empty.
  - intros a Ha. revert a Ha. apply Forall_forall.
    apply (bool_decide_unpack _). vm_compute. exact I.
  - apply (bool_decide_unpack _). vm_compute. exact I.
  - done.
  - intros a Ha. revert a Ha. apply Forall_forall.
    apply (bool_decide_unpack _). vm_compute. exact I.
  - split; [exact Hsize | exact Hcount].
Defined.

(* ===================================================================== *)
(** * The books of a run on an operating system that can refuse *)
(* ===================================================================== *)

Lemma os_for_part_accounts (os : Os.env) (target_dir : string) (w : world)
    (p : Os.walked_part) :
  let r := Os.for_part os target_dir w p in
  processed (stats r.1) = processed (stats w)
  ∧ extracted (stats w) ≤ extracted (stats r.1)
    ≤ extracted (stats w) + (if named_attachment p then 1 else 0)
  ∧ size (fs w) ≤ size (fs r.1)
  ∧ size (fs r.1) + extracted (stats w)
    ≤ size (fs w) + extracted (stats r.1)
      + match r.2 with Raised => 1 | Returned => 0 end.
Proof.
  unfold Os.for_part, named_attachment.
  destruct p as [| content_disposition [filename |] file_data];
    cbn [fst snd]; try (repeat split; lia).
  - destruct (bool_decide (content_disposition = Some "attachment"));
      cbn [fst snd andb]; [| repeat split; lia].
    destruct (truthy filename); cbn [fst snd]; [| repeat split; lia].
    destruct (Os.make_unique_filename os (fs w) target_dir filename file_data)
      as [e | [unique_filename |]]; cbn [fst snd]; try (repeat split; lia).
    destruct (truthy unique_filename); cbn [fst snd];
      [| repeat split; lia].
    destruct (os (OsPath.join target_dir unique_filename));
      cbn [fst snd]; try (repeat split; lia).
    destruct file_data as [data |]; cbn [fst snd fs stats extracted processed];
      rewrite map_size_insert;
      destruct (fs w !! OsPath.join target_dir unique_filename);
      unfold id; repeat split; lia.
  - destruct (bool_decide (content_disposition = Some "attachment"));
      cbn [fst snd]; repeat split; lia.
Qed.

Lemma os_walk_parts_accounts (os : Os.env) (target_dir : string)
    (walk : list Os.walked_part) (w : world) :
  let r := Os.walk_parts os target_dir walk w in
  processed (stats r.1) = processed (stats w)
  ∧ extracted (stats w) ≤ extracted (stats r.1)
    ≤ extracted (stats w) + length (filter named_attachment walk)
  ∧ size (fs w) ≤ size (fs r.1)
  ∧ size (fs r.1) + extracted (stats w)
    ≤ size (fs w) + extracted (stats r.1)
      + match r.2 with Raised => 1 | Returned => 0 end.
Proof.
  revert w. induction walk as [|p walk IH]; intros w.
  { cbn. repeat split; lia. }
  cbn [Os.walk_parts]. rewrite filter_cons.
  pose proof (os_for_part_accounts os target_dir w p) as Hp.
  destruct (Os.for_part os target_dir w p) as [w1 [|]].
  - specialize (IH w1). cbn [fst snd] in *.
    destruct (named_attachment p); case_decide; try done;
      cbn [length]; lia.
  - cbn [fst snd] in *.
    destruct (named_attachment p); case_decide; try done; cbn [length]; lia.
Qed.

Lemma os_extract_accounts (os : Os.env) (target_dir : string)
    (file : Os.eml_file) (w : world) :
  let r := Os.extract_attachments_from_file os file target_dir w in
  processed (stats r.1)
  = processed (stats w) + match r.2 with Raised => 0 | Returned => 1 end
  ∧ extracted (stats w) ≤ extracted (stats r.1)
    ≤ extracted (stats w) + length (filter named_attachment (parts_of file))
  ∧ size (fs w) ≤ size (fs r.1)
  ∧ size (fs r.1) + extracted (stats w)
    ≤ size (fs w) + extracted (stats r.1)
      + match r.2 with Raised => 1 | Returned => 0 end.
Proof.
  destruct file as [|walk]; [cbn; repeat split; lia |].
  cbn [Os.extract_attachments_from_file parts_of].
  pose proof (os_walk_parts_accounts os target_dir walk w) as Hw.
  destruct (Os.walk_parts os target_dir walk w) as [w1 [|]];
    cbn [fst snd mark_processed fs stats processed extracted] in *; lia.
Qed.

Lemma ended_cons (r r' : outcome) (outcomes : list outcome) :
  ended r (r' :: outcomes)
  = (if decide (r' = r) then 1 else 0) + ended r outcomes.
Proof. unfold ended. rewrite filter_cons. by case_decide. Qed.

(** X7: the books of a run that takes the files one after the other, on an
    operating system that can refuse a call, for message files whose file
    names have no directory part: every file ends with a return or with an
    exception; [processed] goes up by the number of calls that returned,
    [extracted] by at most the number of attachments with a file name; no
    file disappears; and the directory grows by at most the files counted as
    extracted, plus one for each call that raised (the file that [open] has
    created when [write] raises). *)
Theorem X7_sequential_run_accounts
    (os : Os.env) (target_dir : string) (eml_files : list Os.eml_file)
    (w : world) :
  in_directory target_dir (fs w) →
  plain_files eml_files = true →
  let run := Os.run_sequential os target_dir eml_files w in
  ended Returned run.2 + ended Raised run.2 = length eml_files
  ∧ processed (stats run.1) = processed (stats w) + ended Returned run.2
  ∧ extracted (stats w) ≤ extracted (stats run.1)
    ≤ extracted (stats w)
      + length (filter named_attachment (concat (parts_of <$> eml_files)))
  ∧ size (fs w) ≤ size (fs run.1)
  ∧ size (fs run.1) + extracted (stats w)
    ≤ size (fs w) + extracted (stats run.1) + ended Raised run.2.
Proof.
  intros _ _. revert w.
  induction eml_files as [|file eml_files IH]; intros w run.
  { cbn. repeat split; lia. }
  unfold run. cbn [Os.run_sequential]. rewrite fmap_cons.
  cbn [concat]. rewrite filter_app, length_app.
  pose proof (os_extract_accounts os target_dir file w) as Hf.
  destruct (Os.extract_attachments_from_file os file target_dir w)
    as [w1 r].
  specialize (IH w1). cbn zeta in IH.
  destruct (Os.run_sequential os target_dir eml_files w1) as [w2 rs].
  cbn [fst snd length] in *. rewrite !ended_cons.
  destruct r; repeat case_decide; try done; lia.
Qed.

Lemma X7_witness :
  let run :=
    Os.run_sequential (Os.flat "extracted") "extracted"
      [Os.Parsed [Os.Walked (Some "attachment") (Some "mail.eml") None];
       Os.Broken;
       Os.of_file a_eml]
      (World ∅ (Counters 0 0)) in
  processed (stats run.1) = 0 + ended Returned run.2
  ∧ size (fs run.1) + 0 ≤ 0 + extracted (stats run.1) + ended Raised run.2.
Proof.
  intros run.
  destruct (X7_sequential_run_accounts (Os.flat "extracted") "extracted"
              [Os.Parsed [Os.Walked (Some "attachment") (Some "mail.eml") None];
               Os.Broken;
               Os.of_file a_eml]
              (World ∅ (Counters 0 0)))
    as (_ & Hprocessed & _ & _ & Hsize).
  - apply in_directory_empty.
  - reflexivity.
  - split; [exact Hprocessed | exact Hsize].
Defined.

(** A run with two calls that raise: the attached message leaves an empty
    file that is not counted, the second file does not parse, and the third
    file is processed. *)
Example run_with_refusals :
  Os.run_sequential (Os.flat "extracted") "extracted"
    [Os.Parsed [Os.Walked (Some "attachment") (Some "mail.eml") None];
     Os.Broken;
     Os.of_file a_eml]
    (World ∅ (Counters 0 0))
  = (World (<["extracted/report.pdf" := [x58]]>
              {["extracted/mail.eml" := []]}) (Counters 1 1),
     [Raised; Raised; Returned]).
Proof. compute_done. Qed.

(* ===================================================================== *)
(** * What a call that returns has saved *)
(* ===================================================================== *)

Lemma keeps_digests_refl (disk : filesystem) : keeps_digests disk disk.
Proof. by intros path digest H. Qed.









(* ===================================================================== *)
(** * The count of a second run *)
(* ===================================================================== *)

(** A name answered for an attachment that has just gone through the loop
    body is the name that was answered for it before. *)
Lemma disk_step_answer (target_dir : string) (disk : filesystem)
    (a : string * bytes) (name : string) :
  make_unique_filename (disk_step target_dir disk a) target_dir a.1 a.2
  = Some name →
  make_unique_filename disk target_dir a.1 a.2 = Some name.
Proof.
  destruct a as [filename file_data]. unfold disk_step. cbn [fst snd].
  destruct (OsPath.splitext filename) as [base extension] eqn:Hs.
  destruct (make_unique_filename_cases disk target_dir filename base
              extension file_data Hs)
    as [[Hfree Hm] | [[Hsame Hm] | (digest & k & Hd & Hne & Hk1 & Hb & Hlow & Hm)]];
    rewrite Hm.
  - rewrite make_unique_filename_identical; [done |].
    apply existing_file_md5_insert.
  - by rewrite Hm.
  - intros <-. f_equal.
    change (OsPath.join target_dir (unique_filename base extension k))
      with (unique_path target_dir base extension k).
    assert (unique_path target_dir base extension k
            ≠ OsPath.join target_dir filename) as Hplain.
    { rewrite <- (splitext_app _ _ _ Hs). apply unique_path_ne_plain. }
    rewrite (make_unique_filename_numbered _ _ _ _ _ _ Hs).
    + f_equal. symmetry. apply while_True_first; [done | |].
      * by rewrite breaks_md5, existing_file_md5_insert,
          bool_decide_eq_true_2.
      * intros j Hj. rewrite <- (Hlow j Hj), !breaks_md5.
        rewrite existing_file_md5_insert_ne; [done |].
        intros H%unique_path_inj. lia.
    + apply (lookup_md5_exists _ _ digest).
      by rewrite existing_file_md5_insert_ne.
    + rewrite existing_file_md5_insert_ne by done. congruence.
Qed.

(** A name answered at the end of a run that was refused nothing is a name
    the operating system has opened for writing during the run. *)
Lemma run_answers_accepted (os : Os.env) (target_dir : string)
    (l : list (string * bytes)) (disk : filesystem) (a : string * bytes)
    (name : string) :
  accepts_all os target_dir l disk →
  a ∈ l →
  make_unique_filename (fold_left (disk_step target_dir) l disk)
    target_dir a.1 a.2 = Some name →
  os (OsPath.join target_dir name) = Os.Accepted.
Proof.
  revert disk. induction l as [|a0 l IH]; intros disk Hacc Hin Hm.
  { by apply elem_of_nil in Hin. }
  destruct Hacc as [[_ Ha0] Hacc]. cbn [fold_left] in Hm.
  apply elem_of_cons in Hin as [-> | Hin]; [| by apply (IH _ Hacc)].
  apply Ha0, disk_step_answer.
  destruct (settled_stable target_dir (disk_step target_dir disk a0)
              (fold_left (disk_step target_dir) l
                 (disk_step target_dir disk a0)) a0) as [Heq _].
  - apply disk_step_settled.
  - apply run_keeps_digests.
  - by rewrite <- Heq.
Qed.

(** On a disk where the attachments of a run are settled, the run is refused
    nothing if the names answered there can be opened for writing and no
    name of a family is a directory or a file that cannot be read. *)
Lemma settled_run_accepts (os : Os.env) (target_dir : string)
    (l : list (string * bytes)) (disk disk' : filesystem) :
  (∀ a n, a ∈ l →
          os (slot target_dir a.1 (OsPath.splitext a.1).1
                (OsPath.splitext a.1).2 n) ≠ Os.Unreadable) →
  (∀ a name, a ∈ l →
             make_unique_filename disk target_dir a.1 a.2 = Some name →
             os (OsPath.join target_dir name) = Os.Accepted) →
  (∀ a, a ∈ l → settled target_dir disk a) →
  keeps_digests disk disk' →
  accepts_all os target_dir l disk'.
Proof.
  revert disk'. induction l as [|a l IH]; intros disk' Hreg Hacc Hset Hk;
    [done |].
  destruct (settled_stable target_dir disk disk' a) as [Heq _];
    [apply Hset; left | done |].
  cbn [accepts_all]. split; [split |].
  - apply (os_make_unique_filename_regular os disk' target_dir a.1
             (OsPath.splitext a.1).1 (OsPath.splitext a.1).2);
      [by destruct (OsPath.splitext a.1) |].
    intros n. apply Hreg. left.
  - intros name Hm. apply (Hacc a); [left | by rewrite <- Heq].
  - apply IH.
    + intros b n Hb. apply Hreg. by right.
    + intros b name Hb. apply Hacc. by right.
    + intros b Hb. apply Hset. by right.
    + eapply keeps_digests_trans; [exact Hk | apply disk_step_keeps_digests].
Qed.

(** X17: the attachments of the run have file names without a directory
    part, no getter raises and every payload is [bytes], no name of a family
    is a directory or a file that cannot be read, and the operating system
    refuses nothing to the first run. Then it refuses nothing to a second run either, the files being
    taken one after the other in both, and what the second run returns as
    extracted is the number of attachments whose content the first run has
    not left under their desired name: those kept under a numbered variant
    are saved and counted again. *)
Theorem X17_second_run_counts_numbered_variants
    (os : Os.env) (target_dir : string) (eml_files : list message_file)
    (fs0 : filesystem) :
  in_directory target_dir fs0 →
  (∀ a, a ∈ concat (attachments_of <$> eml_files) →
        plain_name a.1 = true) →
  (∀ a n, a ∈ concat (attachments_of <$> eml_files) →
          os (slot target_dir a.1 (OsPath.splitext a.1).1
                (OsPath.splitext a.1).2 n) ≠ Os.Unreadable) →
  accepts_all os target_dir (concat (attachments_of <$> eml_files)) fs0 →
  let first :=
    Os.extract_and_save_attachments_sequential os (Os.of_file <$> eml_files)
      target_dir fs0 in
  let second :=
    Os.extract_and_save_attachments_sequential os (Os.of_file <$> eml_files)
      target_dir first.1 in
  accepts_all os target_dir (concat (attachments_of <$> eml_files)) first.1
  ∧ second.1 = first.1
  ∧ second.2.2
    = length (filter (λ a, existing_file_md5 first.1
                             (OsPath.join target_dir a.1)
                           ≠ Some (file_md5 a.2))
                (concat (attachments_of <$> eml_files))).
Proof.
  intros _ _ Hreg Hacc first second.
  assert (first
          = Pool.extract_and_save_attachments_sequential eml_files
              target_dir fs0) as Hfirst.
  { unfold first, Os.extract_and_save_attachments_sequential,
      Pool.extract_and_save_attachments_sequential.
    by rewrite os_run_sequential_accepts. }
  assert (accepts_all os target_dir
            (concat (attachments_of <$> eml_files)) first.1) as Hacc'.
  { rewrite Hfirst, files_of_sequential_run.
    apply (settled_run_accepts os target_dir _
             (fold_left (disk_step target_dir)
                (concat (attachments_of <$> eml_files)) fs0)).
    - intros a n Ha. by apply Hreg.
    - intros a name Ha Hm. by apply (run_answers_accepted os target_dir
        (concat (attachments_of <$> eml_files)) fs0 a).
    - intros a Ha. by apply run_settles.
    - apply keeps_digests_refl. }
  assert (second
          = Pool.extract_and_save_attachments_sequential eml_files
              target_dir first.1) as ->.
  { unfold second, Os.extract_and_save_attachments_sequential,
      Pool.extract_and_save_attachments_sequential.
    by rewrite os_run_sequential_accepts. }
  split; [exact Hacc' |]. rewrite Hfirst. split.
  - cbn [fst]. rewrite !files_of_sequential_run. apply run_twice.
  - rewrite (second_run_extracted_count target_dir eml_files fs0).
    apply length_rewrites.
Qed.

Lemma X17_witness :
  let first :=
    Os.extract_and_save_attachments_sequential (Os.flat "extracted")
      (Os.of_file <$> [a_eml; b_eml]) "extracted" ∅ in
  let second :=
    Os.extract_and_save_attachments_sequential (Os.flat "extracted")
      (Os.of_file <$> [a_eml; b_eml]) "extracted" first.1 in
  second.1 = first.1
  ∧ second.2.2
    = length (filter (λ a, existing_file_md5 first.1
                             (OsPath.join "extracted" a.1)
                           ≠ Some (file_md5 a.2))
                (concat (attachments_of <$> [a_eml; b_eml]))).
Proof.
  refine (proj2 (X17_second_run_counts_numbered_variants
                   (Os.flat "extracted") "extracted" [a_eml; b_eml] ∅
                   _ _ _ _)).
  - apply in_directory_empty.
  - intros a Ha. revert a Ha. apply Forall_forall.
    apply (bool_decide_unpack _). vm_compute. exact I.
  - intros a n Ha.
    assert (a.1 = "report.pdf") as ->.
    { revert a Ha. apply Forall_forall.
      apply (bool_decide_unpack _). vm_compute. exact I. }
    apply flat_family; try done.
    intros H. repeat (apply elem_of_cons in H as [H | H]); try done.
    by apply elem_of_nil in H.
  - change (concat (attachments_of <$> [a_eml; b_eml]))
      with [("report.pdf", [x58]); ("report.pdf", [x59])].
    split; [split | split; [split | done]].
    + vm_compute. reflexivity.
    + intros name Hm. vm_compute in Hm. by injection Hm as <-.
    + vm_compute. reflexivity.
    + intros name Hm. vm_compute in Hm. by injection Hm as <-.
Defined.

(* ===================================================================== *)
(** * Calls that raise *)
(* ===================================================================== *)




(** X19: an attachment with a file name whose payload is [None], as of an
    attached message, always ends its call with an exception: of
    [hashlib.md5] when the desired name exists, of [write] after [open] has
    created an empty file when the name is free and can be opened, of
    [open] otherwise. It is never counted. *)
Theorem X19_attachment_without_bytes
    (os : Os.env) (target_dir filename : string) (w : world) :
  filename ≠ "" →
  let save_path := OsPath.join target_dir filename in
  Os.for_part os target_dir w
    (Os.Walked (Some "attachment") (Some filename) None)
  = if Os.os_path_exists os (fs w) save_path then (w, Raised)
    else
      match os save_path with
      | Os.Accepted => (World (<[save_path := []]> (fs w)) (stats w), Raised)
      | _ => (w, Raised)
      end.
Proof.
  intros Hne save_path. subst save_path.
  unfold Os.for_part, Os.make_unique_filename.
  rewrite bool_decide_eq_true_2, (truthy_ne _ Hne) by done.
  destruct (OsPath.splitext filename) as [base extension].
  destruct (Os.os_path_exists os (fs w) (OsPath.join target_dir filename));
    [done |].
  rewrite (truthy_ne _ Hne).
  by destruct (os (OsPath.join target_dir filename)).
Qed.

Lemma X19_witness :
  Os.for_part (Os.flat "extracted") "extracted" (World ∅ (Counters 0 0))
    (Os.Walked (Some "attachment") (Some "mail.eml") None)
  = (World {["extracted/mail.eml" := []]} (Counters 0 0), Raised).
Proof.
  by rewrite (X19_attachment_without_bytes (Os.flat "extracted")
                "extracted" "mail.eml" (World ∅ (Counters 0 0))).
Defined.



(** X21: where the operating system lets every attachment of the run
    through, the file names have no directory part, no getter raises and
    every payload is [bytes], the run on the operating system is the run in
    which no call is refused: the same files, the same counters, and an
    exception only for the files that do not parse. *)
Theorem X21_nothing_refused
    (os : Os.env) (target_dir : string) (eml_files : list message_file)
    (fs0 : filesystem) :
  in_directory target_dir fs0 →
  (∀ a, a ∈ concat (attachments_of <$> eml_files) →
        plain_name a.1 = true) →
  accepts_all os target_dir (concat (attachments_of <$> eml_files)) fs0 →
  Os.run_sequential os target_dir (Os.of_file <$> eml_files)
    (World fs0 (Counters 0 0))
  = (Pool.run_sequential target_dir eml_files (World fs0 (Counters 0 0)),
     outcome_of <$> eml_files)
  ∧ Os.extract_and_save_attachments_sequential os (Os.of_file <$> eml_files)
      target_dir fs0
    = Pool.extract_and_save_attachments_sequential eml_files target_dir fs0.
Proof.
  intros _ _ Hacc.
  pose proof (os_run_sequential_accepts os target_dir eml_files
                (World fs0 (Counters 0 0)) Hacc) as Hrun.
  split; [exact Hrun |].
  unfold Os.extract_and_save_attachments_sequential,
    Pool.extract_and_save_attachments_sequential.
  by rewrite Hrun.
Qed.

Lemma X21_witness :
  Os.extract_and_save_attachments_sequential (Os.flat "extracted")
    (Os.of_file <$> [a_eml; Unparsable]) "extracted" ∅
  = Pool.extract_and_save_attachments_sequential [a_eml; Unparsable]
      "extracted" ∅.
Proof.
  refine (proj2 (X21_nothing_refused (Os.flat "extracted") "extracted"
                   [a_eml; Unparsable] ∅ (in_directory_empty _) _ _)).
  { intros a Ha. revert a Ha. apply Forall_forall.
    apply (bool_decide_unpack _). vm_compute. exact I. }
  change (concat (attachments_of <$> [a_eml; Unparsable]))
    with [("report.pdf", [x58])].
  split; [split | done].
  - vm_compute. reflexivity.
  - intros name Hm. vm_compute in Hm. by injection Hm as <-.
Defined.

(* ===================================================================== *)
(** * Inside and outside the target directory *)
(* ===================================================================== *)





(** X23: a file name that is an absolute path leaves the target directory:
    [os.path.join] drops the directory, and where that path does not exist
    and can be opened for writing the attachment is saved there and
    counted. *)
Theorem X23_absolute_name_leaves_the_directory
    (os : Os.env) (target_dir filename : string) (file_data : bytes)
    (w : world) :
  Str.startswith filename "/" = true →
  Os.os_path_exists os (fs w) filename = false →
  os filename = Os.Accepted →
  OsPath.join target_dir filename = filename
  ∧ Os.for_part os target_dir w (Os.of_part (attachment filename file_data))
    = (World (<[filename := file_data]> (fs w))
             (Counters (processed (stats w)) (extracted (stats w) + 1)),
       Returned).
Proof.
  intros Habs Hfree Hacc.
  assert (OsPath.join target_dir filename = filename) as Hjoin
    by (unfold OsPath.join; by rewrite Habs).
  split; [done |].
  rewrite os_for_part_free; rewrite ?Hjoin; [by rewrite Hacc | | done].
  by destruct filename.
Qed.

Lemma X23_witness :
  Os.for_part (λ _, Os.Accepted) "extracted" (World ∅ (Counters 0 0))
    (Os.of_part (attachment "/srv/report.pdf" [x58]))
  = (World {["/srv/report.pdf" := [x58]]} (Counters 0 1), Returned).
Proof.
  by refine (proj2 (X23_absolute_name_leaves_the_directory
                      (λ _, Os.Accepted) "extracted" "/srv/report.pdf"
                      [x58] (World ∅ (Counters 0 0)) _ _ _)).
Defined.
